(** * VanillaVAE: a shallow embedding of [models/vanilla_vae.py]

    The model object is lazily built: [__init__] records the hyper-parameters,
    [build] sizes every layer from the first data batch, and the remaining
    methods ([encode], [decode], [reparameterize], [forward], [loss_function],
    [sample], [generate]) use the layers that [build] created.

    The embedding follows the Python text.  Methods are computations in a
    state-and-exception monad over a [World] holding the model object and the
    state of the random generator.  Tensors carry their shape, their values in
    row-major order and their gradient-tracking flag.  The numeric kernels of
    the tensor library (convolution, normalisation, ...) and the scalar
    arithmetic are an interface, [Backend]; the shape discipline of every
    layer is written out. *)

From Stdlib Require Import QArith.
From stdpp Require Import base numbers list strings gmap.

Open Scope Z_scope.

(** ** Python exceptions and results

    [NotModelled] is not an exception of Python: it marks behaviour of the
    tensor library that the embedding leaves out (broadcasting between
    unequal shapes), where the library would either compute or raise. *)

Inductive Exn : Type :=
| AttributeError (msg : string)
| IndexError
| KeyError (key : string)
| RuntimeError
| ValueError
| NotModelled.

Inductive Result (A : Type) : Type :=
| Ok (a : A)
| Raise (e : Exn).
Arguments Ok {A} a.
Arguments Raise {A} e.

#[export] Instance Result_ret : MRet Result := fun _ a => Ok a.
#[export] Instance Result_bind : MBind Result := fun _ _ f r =>
  match r with
  | Ok a => f a
  | Raise e => Raise e
  end.

(** Indexing a Python sequence with a non-negative index. *)
Definition py_index {A} (l : list A) (i : nat) : Result A :=
  match l !! i with
  | Some a => Ok a
  | None => Raise IndexError
  end.

(** [l[-1]]. *)
Definition py_last {A} (l : list A) : Result A :=
  match last l with
  | Some a => Ok a
  | None => Raise IndexError
  end.

(** [d[key]] on a dict with string keys. *)
Definition py_getitem {A} (d : gmap string A) (key : string) : Result A :=
  match d !! key with
  | Some a => Ok a
  | None => Raise (KeyError key)
  end.

(** ** The tensor backend

    Scalars are the element type of tensors (single-precision floats in the
    library); their arithmetic is kept abstract, and so no algebraic law is
    used except that negation, a flip of the sign bit, is an involution.
    [Gen] is the state of the default random generator, [randn_values n]
    draws [n] standard normal values, [init_params] draws the initial
    parameters of a freshly constructed layer, and [kernel_values] gives the
    values a primitive layer computes from its mode, its parameters and its
    input; the shape of that output is [prim_shape]. *)

(** Primitive layers with their hyper-parameters. *)
Inductive Prim : Type :=
| PConv2d (in_channels out_channels kernel_size stride padding : Z)
| PConvTranspose2d (in_channels out_channels kernel_size stride padding output_padding : Z)
| PBatchNorm2d (num_features : Z)
| PLeakyReLU
| PLinear (in_features out_features : Z).

(** The output shape of a primitive layer, and the inputs it rejects.

    - [Conv2d]: batched (4-d) or unbatched (3-d) input whose channel count is
      [in_channels]; the padded input must not be smaller than the kernel;
      each spatial size [h] becomes
      [(h + 2*padding - (kernel_size - 1) - 1) / stride + 1].
    - [ConvTranspose2d]: each spatial size [h] becomes
      [(h - 1)*stride - 2*padding + (kernel_size - 1) + output_padding + 1].
    - [BatchNorm2d]: 4-d input only ([ValueError] otherwise); in training
      mode a batch with a single value per channel is a [ValueError]; the
      channel count must be [num_features].  Running statistics are not
      modelled.
    - [Linear]: the last dimension must be [in_features] and becomes
      [out_features]. *)
Definition conv_out (h k s p : Z) : Z := (h + 2 * p - (k - 1) - 1) / s + 1.
Definition convT_out (h k s p op : Z) : Z := (h - 1) * s - 2 * p + (k - 1) + op + 1.

Definition conv2d_hw (cin cout k s p c h w : Z) (batch : list Z) : Result (list Z) :=
  if decide (c = cin ∧ 0 < k ∧ 0 < s ∧ k ≤ h + 2 * p ∧ k ≤ w + 2 * p)
  then Ok (batch ++ [cout; conv_out h k s p; conv_out w k s p])
  else Raise RuntimeError.

Definition convT2d_hw (cin cout k s p op c h w : Z) (batch : list Z) : Result (list Z) :=
  if decide (c = cin ∧ 0 < convT_out h k s p op ∧ 0 < convT_out w k s p op)
  then Ok (batch ++ [cout; convT_out h k s p op; convT_out w k s p op])
  else Raise RuntimeError.

Definition prim_shape (p : Prim) (training : bool) (s : list Z) : Result (list Z) :=
  match p with
  | PConv2d cin cout k st pd =>
      match s with
      | [n; c; h; w] => conv2d_hw cin cout k st pd c h w [n]
      | [c; h; w] => conv2d_hw cin cout k st pd c h w []
      | _ => Raise RuntimeError
      end
  | PConvTranspose2d cin cout k st pd op =>
      match s with
      | [n; c; h; w] => convT2d_hw cin cout k st pd op c h w [n]
      | [c; h; w] => convT2d_hw cin cout k st pd op c h w []
      | _ => Raise RuntimeError
      end
  | PBatchNorm2d nf =>
      match s with
      | [n; c; h; w] =>
          if training && bool_decide (n * h * w = 1) then Raise ValueError
          else if decide (c = nf) then Ok s else Raise RuntimeError
      | _ => Raise ValueError
      end
  | PLeakyReLU => Ok s
  | PLinear fin fout =>
      match reverse s with
      | d :: pre => if decide (d = fin) then Ok (reverse (fout :: pre)) else Raise RuntimeError
      | [] => Raise RuntimeError
      end
  end.

Class Backend : Type := {
  R : Type;
  sc_of_Z : Z → R;
  sc_half : R;
  sc_add : R → R → R;
  sc_sub : R → R → R;
  sc_mul : R → R → R;
  sc_div : R → R → R;
  sc_neg : R → R;
  sc_exp : R → R;
  sc_pow : R → Z → R;
  sc_neg_involutive : ∀ x, sc_neg (sc_neg x) = x;
  Gen : Type;
  randn_values : nat → Gen → list R * Gen;
  randn_values_length : ∀ n g, length (randn_values n g).1 = n;
  Params : Type;
  init_params : Prim → Gen → Params * Gen;
  kernel_values : Prim → bool → option Params → list Z → list R → list R
}.

Section VAE.
Context `{BK : Backend}.

(** ** Tensors *)

Record Tensor : Type := mkTensor {
  shape : list Z;
  data : list R;
  requires_grad : bool
}.

Definition prod_Z (l : list Z) : Z := foldr Z.mul 1 l.

Definition numel (t : Tensor) : Z := prod_Z (shape t).

(** A tensor is well formed when it stores one value per index. *)
Definition wf (t : Tensor) : Prop :=
  Forall (λ d, 0 ≤ d) (shape t) ∧ length (data t) = Z.to_nat (numel t).

(** The 0-dimensional tensor holding [x]. *)
Definition scalar_tensor (x : R) (rg : bool) : Tensor := mkTensor [] [x] rg.

(** [t.detach()]: same values, cut from the gradient graph. *)
Definition detach (t : Tensor) : Tensor := mkTensor (shape t) (data t) false.

(** [t.to(device)]: device placement is not modelled, every tensor and every
    module lives on the one device. *)
Inductive Device : Type := Cpu | Cuda (index : nat).
Definition to (t : Tensor) (device : Device) : Tensor := t.

(** Pointwise operations. *)
Definition t_map (f : R → R) (t : Tensor) : Tensor :=
  mkTensor (shape t) (f <$> data t) (requires_grad t).

Definition t_exp : Tensor → Tensor := t_map sc_exp.
Definition t_neg : Tensor → Tensor := t_map sc_neg.
Definition t_pow (t : Tensor) (n : Z) : Tensor := t_map (λ x, sc_pow x n) t.
(** [c * t] and [c + t] for a Python number [c]. *)
Definition t_rmul (c : R) : Tensor → Tensor := t_map (sc_mul c).
Definition t_radd (c : R) : Tensor → Tensor := t_map (sc_add c).

(** Binary operations on tensors.  Operands of one shape are combined index
    by index; a 0-dimensional operand is combined with every value of the
    other one.  Broadcasting between other unequal shapes is outside the
    model. *)
Definition t_binop (f : R → R → R) (a b : Tensor) : Result Tensor :=
  let rg := requires_grad a || requires_grad b in
  if decide (shape a = shape b) then
    Ok (mkTensor (shape a) (zip_with f (data a) (data b)) rg)
  else match shape a, data a, shape b, data b with
       | [], [x], _, _ => Ok (mkTensor (shape b) (f x <$> data b) rg)
       | _, _, [], [y] => Ok (mkTensor (shape a) ((λ x, f x y) <$> data a) rg)
       | _, _, _, _ => Raise NotModelled
       end.

Definition t_add := t_binop sc_add.
Definition t_sub := t_binop sc_sub.
Definition t_mul := t_binop sc_mul.

(** Reductions.  [chunks n k l] cuts [l] into [n] consecutive blocks of [k]
    values; [vsum k rows] adds rows of [k] values position by position.  The
    library leaves the order of accumulation open; it is taken left to right,
    starting from zero. *)
Fixpoint chunks {A} (n k : nat) (l : list A) : list (list A) :=
  match n with
  | O => []
  | S n' => take k l :: chunks n' k (drop k l)
  end.

Definition total (l : list R) : R := foldl sc_add (sc_of_Z 0) l.

Definition vsum (k : nat) (rows : list (list R)) : list R :=
  foldl (zip_with sc_add) (replicate k (sc_of_Z 0)) rows.

(** [torch.sum(t, dim=1)]. *)
Definition sum_dim1 (t : Tensor) : Result Tensor :=
  match shape t with
  | d0 :: d1 :: rest =>
      let inner := Z.to_nat (prod_Z rest) in
      let blocks := chunks (Z.to_nat d0) (Z.to_nat d1 * inner) (data t) in
      Ok (mkTensor (d0 :: rest)
            (concat ((λ b, vsum inner (chunks (Z.to_nat d1) inner b)) <$> blocks))
            (requires_grad t))
  | _ => Raise IndexError
  end.

(** [torch.mean(t, dim=0)]; on a 0-dimensional tensor the library accepts
    [dim=0] and the mean of the one value is that value. *)
Definition mean_dim0 (t : Tensor) : Result Tensor :=
  match shape t with
  | d0 :: rest =>
      let inner := Z.to_nat (prod_Z rest) in
      let s := vsum inner (chunks (Z.to_nat d0) inner (data t)) in
      Ok (mkTensor rest ((λ x, sc_div x (sc_of_Z d0)) <$> s) (requires_grad t))
  | [] => Ok t
  end.

(** [F.mse_loss(input, target)] with the default reduction: the mean of the
    squared differences, a 0-dimensional tensor.  For operands of unequal
    shapes the library warns and broadcasts, or raises; that is left out. *)
Definition mse_value (a b : list R) (n : Z) : R :=
  sc_div (total (zip_with (λ x y, sc_pow (sc_sub x y) 2) a b)) (sc_of_Z n).

Definition mse_loss (input target : Tensor) : Result Tensor :=
  if decide (shape input = shape target) then
    Ok (scalar_tensor (mse_value (data input) (data target) (numel input))
          (requires_grad input || requires_grad target))
  else Raise NotModelled.

(** [torch.flatten(t, start_dim=1)]. *)
Definition flatten1 (t : Tensor) : Result Tensor :=
  match shape t with
  | d0 :: d1 :: rest => Ok (mkTensor [d0; prod_Z (d1 :: rest)] (data t) (requires_grad t))
  | _ => Raise IndexError
  end.

(** [t.view(-1, *dims)]: the leading dimension is inferred from the number
    of values. *)
Definition view_infer (t : Tensor) (dims : list Z) : Result Tensor :=
  let newsize := prod_Z dims in
  if decide (0 < newsize ∧ numel t `mod` newsize = 0) then
    Ok (mkTensor (numel t / newsize :: dims) (data t) (requires_grad t))
  else Raise RuntimeError.

(** ** Modules of [torch.nn] *)

#[local] Set Warnings "-register-all".
Inductive NNModule : Type :=
| Leaf (p : Prim) (training : bool) (w : option Params)
| Sequential (ms : list NNModule).

(** [module(t)]. *)
Fixpoint call (m : NNModule) (t : Tensor) : Result Tensor :=
  match m with
  | Leaf p training w =>
      s ← prim_shape p training (shape t);
      Ok (mkTensor s (kernel_values p training w (shape t) (data t))
            (match w with Some _ => true | None => requires_grad t end))
  | Sequential ms =>
      (fix run (ms : list NNModule) (t : Tensor) : Result Tensor :=
         match ms with
         | [] => Ok t
         | m :: ms' => t' ← call m t; run ms' t'
         end) ms t
  end.

(** [module.train(mode)], inherited from [nn.Module]: sets the flag on the
    module and all its children. *)
Fixpoint set_training (mode : bool) (m : NNModule) : NNModule :=
  match m with
  | Leaf p _ w => Leaf p mode w
  | Sequential ms => Sequential (set_training mode <$> ms)
  end.

(** ** The model object and the monad of its methods *)

Record VanillaVAE : Type := mkVanillaVAE {
  latent_dim : Z;
  hidden_dims : list Z;
  in_channels : Z;
  built : bool;
  encoder : option NNModule;
  encoder_result_shape : option (list Z);
  fc_mu : option NNModule;
  fc_var : option NNModule;
  decoder_input : option NNModule;
  decoder : option NNModule;
  final_layer : option NNModule;
  output_layer : option NNModule
}.

Record World : Type := mkWorld {
  self : VanillaVAE;
  gen : Gen
}.

(** A method runs from a world to a result and a world; what a method did
    to the object or the generator before raising stays done. *)
Definition M (A : Type) : Type := World → Result A * World.

#[export] Instance M_ret : MRet M := λ _ a w, (Ok a, w).
#[export] Instance M_bind : MBind M := λ _ _ f m w,
  match m w with
  | (Ok a, w') => f a w'
  | (Raise e, w') => (Raise e, w')
  end.

Definition raise {A} (e : Exn) : M A := λ w, (Raise e, w).
Definition lift {A} (r : Result A) : M A := λ w, (r, w).
Definition attr {A} (f : VanillaVAE → A) : M A := λ w, (Ok (f (self w)), w).
Definition update (f : VanillaVAE → VanillaVAE) : M unit :=
  λ w, (Ok (), mkWorld (f (self w)) (gen w)).

Definition no_attribute (name : string) : string :=
  "'VanillaVAE' object has no attribute '" +:+ name +:+ "'".

(** Reading an attribute that only [build] assigns. *)
Definition getattr {A} (name : string) (f : VanillaVAE → option A) : M A := λ w,
  match f (self w) with
  | Some a => (Ok a, w)
  | None => (Raise (AttributeError (no_attribute name)), w)
  end.

Definition set_encoder (m : NNModule) (v : VanillaVAE) : VanillaVAE :=
  mkVanillaVAE (latent_dim v) (hidden_dims v) (in_channels v) (built v)
    (Some m) (encoder_result_shape v) (fc_mu v) (fc_var v)
    (decoder_input v) (decoder v) (final_layer v) (output_layer v).
Definition set_encoder_result_shape (s : list Z) (v : VanillaVAE) : VanillaVAE :=
  mkVanillaVAE (latent_dim v) (hidden_dims v) (in_channels v) (built v)
    (encoder v) (Some s) (fc_mu v) (fc_var v)
    (decoder_input v) (decoder v) (final_layer v) (output_layer v).
Definition set_fc_mu (m : NNModule) (v : VanillaVAE) : VanillaVAE :=
  mkVanillaVAE (latent_dim v) (hidden_dims v) (in_channels v) (built v)
    (encoder v) (encoder_result_shape v) (Some m) (fc_var v)
    (decoder_input v) (decoder v) (final_layer v) (output_layer v).
Definition set_fc_var (m : NNModule) (v : VanillaVAE) : VanillaVAE :=
  mkVanillaVAE (latent_dim v) (hidden_dims v) (in_channels v) (built v)
    (encoder v) (encoder_result_shape v) (fc_mu v) (Some m)
    (decoder_input v) (decoder v) (final_layer v) (output_layer v).
Definition set_decoder_input (m : NNModule) (v : VanillaVAE) : VanillaVAE :=
  mkVanillaVAE (latent_dim v) (hidden_dims v) (in_channels v) (built v)
    (encoder v) (encoder_result_shape v) (fc_mu v) (fc_var v)
    (Some m) (decoder v) (final_layer v) (output_layer v).
Definition set_decoder (m : NNModule) (v : VanillaVAE) : VanillaVAE :=
  mkVanillaVAE (latent_dim v) (hidden_dims v) (in_channels v) (built v)
    (encoder v) (encoder_result_shape v) (fc_mu v) (fc_var v)
    (decoder_input v) (Some m) (final_layer v) (output_layer v).
Definition set_final_layer (m : NNModule) (v : VanillaVAE) : VanillaVAE :=
  mkVanillaVAE (latent_dim v) (hidden_dims v) (in_channels v) (built v)
    (encoder v) (encoder_result_shape v) (fc_mu v) (fc_var v)
    (decoder_input v) (decoder v) (Some m) (output_layer v).
Definition set_output_layer (m : NNModule) (v : VanillaVAE) : VanillaVAE :=
  mkVanillaVAE (latent_dim v) (hidden_dims v) (in_channels v) (built v)
    (encoder v) (encoder_result_shape v) (fc_mu v) (fc_var v)
    (decoder_input v) (decoder v) (final_layer v) (Some m).
Definition set_built (b : bool) (v : VanillaVAE) : VanillaVAE :=
  mkVanillaVAE (latent_dim v) (hidden_dims v) (in_channels v) b
    (encoder v) (encoder_result_shape v) (fc_mu v) (fc_var v)
    (decoder_input v) (decoder v) (final_layer v) (output_layer v).

(** Constructing a layer allocates its parameters, which fails on a negative
    size, and initialises them from the generator. *)
Definition new_layer (p : Prim) (sizes : list Z) : M NNModule := λ w,
  if decide (Forall (λ d, 0 ≤ d) sizes) then
    let '(ps, g) := init_params p (gen w) in
    (Ok (Leaf p true (Some ps)), mkWorld (self w) g)
  else (Raise RuntimeError, w).

Definition nn_Conv2d (cin cout k stride padding : Z) : M NNModule :=
  new_layer (PConv2d cin cout k stride padding) [cin; cout; k].
Definition nn_ConvTranspose2d (cin cout k stride padding output_padding : Z) : M NNModule :=
  new_layer (PConvTranspose2d cin cout k stride padding output_padding) [cin; cout; k].
Definition nn_BatchNorm2d (num_features : Z) : M NNModule :=
  new_layer (PBatchNorm2d num_features) [num_features].
Definition nn_Linear (fin fout : Z) : M NNModule :=
  new_layer (PLinear fin fout) [fin; fout].
Definition nn_LeakyReLU : NNModule := Leaf PLeakyReLU true None.

(** [torch.randn] of the given sizes, and [torch.randn_like(t)]. *)
Definition randn (sizes : list Z) : M Tensor := λ w,
  if decide (Forall (λ d, 0 ≤ d) sizes) then
    let '(vs, g) := randn_values (Z.to_nat (prod_Z sizes)) (gen w) in
    (Ok (mkTensor sizes vs false), mkWorld (self w) g)
  else (Raise RuntimeError, w).

Definition randn_like (t : Tensor) : M Tensor := randn (shape t).

(** ** The methods of [VanillaVAE] *)

(** [__init__]: records the hyper-parameters; no layer exists yet. *)
Definition __init__ (in_channels latent_dim : Z) (hidden_dims : option (list Z)) : VanillaVAE :=
  mkVanillaVAE latent_dim
    (match hidden_dims with
     | None => [32; 64; 128; 256; 512]
     | Some hidden_dims => hidden_dims
     end)
    in_channels false None None None None None None None None.

(** The encoder loop of [build]: one block per hidden dimension, the
    channels of a block feeding the next. *)
Fixpoint encoder_blocks (hidden_dims : list Z) (in_channels : Z) : M (list NNModule) :=
  match hidden_dims with
  | [] => mret []
  | h_dim :: rest =>
      conv ← nn_Conv2d in_channels h_dim 3 2 1;
      bn ← nn_BatchNorm2d h_dim;
      modules ← encoder_blocks rest h_dim;
      mret (Sequential [conv; bn; nn_LeakyReLU] :: modules)
  end.

(** The decoder loop of [build], over the indices [i] of [range]. *)
Fixpoint decoder_blocks (hidden_dims_r : list Z) (range : list nat) : M (list NNModule) :=
  match range with
  | [] => mret []
  | i :: range' =>
      a ← lift (py_index hidden_dims_r i);
      b ← lift (py_index hidden_dims_r (i + 1));
      convT ← nn_ConvTranspose2d a b 3 2 1 1;
      bn ← nn_BatchNorm2d b;
      modules ← decoder_blocks hidden_dims_r range';
      mret (Sequential [convT; bn; nn_LeakyReLU] :: modules)
  end.

(** The kernel size of the output convolution,
    [int(-((required_dim - 1) * 1 + 1 - 2*1 - current_dim) / 1 + 1)].  The
    true division by 1 and the truncation of [int] are exact on the integers
    that occur. *)
Definition output_kernel (required_dim current_dim : Z) : Z :=
  Z.quot (- ((required_dim - 1) * 1 + 1 - 2 * 1 - current_dim)) 1 + 1.

Definition build (dummy_batch : Tensor) (device : Device) : M unit :=
  hidden_dims ← attr hidden_dims;
  let input_shape := shape dummy_batch in
  (* Build Encoder *)
  ic ← attr in_channels;
  modules ← encoder_blocks hidden_dims ic;
  update (set_encoder (Sequential modules));;
  enc ← getattr "encoder" encoder;
  dummy_encoder_result ← lift (call enc dummy_batch);
  update (set_encoder_result_shape (drop 1 (shape dummy_encoder_result)));;
  ers ← getattr "encoder_result_shape" encoder_result_shape;
  ld ← attr latent_dim;
  l ← nn_Linear (prod_Z ers) ld;
  update (set_fc_mu l);;
  ers ← getattr "encoder_result_shape" encoder_result_shape;
  ld ← attr latent_dim;
  l ← nn_Linear (prod_Z ers) ld;
  update (set_fc_var l);;
  fc ← getattr "fc_mu" fc_mu;
  flat ← lift (flatten1 dummy_encoder_result);
  dummy_mu ← lift (call fc flat);
  (* Build Decoder *)
  ld ← attr latent_dim;
  ers ← getattr "encoder_result_shape" encoder_result_shape;
  l ← nn_Linear ld (prod_Z ers);
  update (set_decoder_input l);;
  let hidden_dims_r := reverse hidden_dims in
  modules ← decoder_blocks hidden_dims_r (seq 0 (length hidden_dims_r - 1));
  update (set_decoder (Sequential modules));;
  c ← lift (py_last hidden_dims_r);
  convT ← nn_ConvTranspose2d c c 3 2 1 1;
  bn ← nn_BatchNorm2d c;
  update (set_final_layer (Sequential [convT; bn; nn_LeakyReLU]));;
  di ← getattr "decoder_input" decoder_input;
  x ← lift (call di dummy_mu);
  ers ← getattr "encoder_result_shape" encoder_result_shape;
  x ← lift (view_infer x ers);
  dec ← getattr "decoder" decoder;
  x ← lift (call dec x);
  fl ← getattr "final_layer" final_layer;
  dummy_decoder_result ← lift (call fl x);
  let decoder_result_shape := shape dummy_decoder_result in
  required_dim ← lift (py_last input_shape);
  current_dim ← lift (py_last decoder_result_shape);
  let kernel := output_kernel required_dim current_dim in
  c ← lift (py_last hidden_dims_r);
  oc ← attr in_channels;
  conv ← nn_Conv2d c oc kernel 1 1;
  update (set_output_layer conv);;
  update (set_built true).
  (* self = self.to(device): device placement is not modelled *)

Definition build_first : string := "build model first using model.build".

(** [if not self.built: raise AttributeError(...)], the first line of
    [encode], [decode], [forward] and [loss_function]. *)
Definition require_built : M unit :=
  b ← attr built;
  if negb b then raise (AttributeError build_first) else mret ().

Definition encode (input : Tensor) : M (list Tensor) :=
  require_built;;
  enc ← getattr "encoder" encoder;
  result ← lift (call enc input);
  result ← lift (flatten1 result);
  fc ← getattr "fc_mu" fc_mu;
  mu ← lift (call fc result);
  fc ← getattr "fc_var" fc_var;
  log_var ← lift (call fc result);
  mret [mu; log_var].

Definition decode (z : Tensor) : M Tensor :=
  require_built;;
  di ← getattr "decoder_input" decoder_input;
  result ← lift (call di z);
  ers ← getattr "encoder_result_shape" encoder_result_shape;
  result ← lift (view_infer result ers);
  dec ← getattr "decoder" decoder;
  result ← lift (call dec result);
  fl ← getattr "final_layer" final_layer;
  result ← lift (call fl result);
  ol ← getattr "output_layer" output_layer;
  result ← lift (call ol result);
  mret result.

Definition reparameterize (mu logvar : Tensor) : M Tensor :=
  let std := t_exp (t_rmul sc_half logvar) in
  eps ← randn_like std;
  x ← lift (t_mul eps std);
  lift (t_add x mu).

(** [mu, log_var = ...]: unpacking a list of two. *)
Definition unpack2 {A} (l : list A) : Result (A * A) :=
  match l with
  | [a; b] => Ok (a, b)
  | _ => Raise ValueError
  end.

Definition forward (input : Tensor) : M (list Tensor) :=
  require_built;;
  r ← encode input;
  '(mu, log_var) ← lift (unpack2 r);
  z ← reparameterize mu log_var;
  d ← decode z;
  mret [d; input; mu; log_var].

Definition loss_function (args : list Tensor) (kwargs : gmap string R)
  : M (gmap string Tensor) :=
  require_built;;
  recons ← lift (py_index args 0);
  input ← lift (py_index args 1);
  mu ← lift (py_index args 2);
  log_var ← lift (py_index args 3);
  kld_weight ← lift (py_getitem kwargs "M_N");
  recons_loss ← lift (mse_loss recons input);
  x ← lift (t_sub (t_radd (sc_of_Z 1) log_var) (t_pow mu 2));
  x ← lift (t_sub x (t_exp log_var));
  x ← lift (sum_dim1 x);
  kld_loss ← lift (mean_dim0 (t_rmul (sc_neg sc_half) x));
  x ← lift (t_add recons_loss (t_rmul kld_weight kld_loss));
  let loss := x in
  mret ({[ "loss" := loss;
           "Reconstruction_Loss" := detach recons_loss;
           "KLD" := t_neg (detach kld_loss) ]} : gmap string Tensor).

Definition sample (num_samples : Z) (current_device : Device) : M Tensor :=
  ld ← attr latent_dim;
  z ← randn [num_samples; ld];
  let z := to z current_device in
  samples ← decode z;
  mret samples.

Definition generate (x : Tensor) : M Tensor :=
  r ← forward x;
  lift (py_index r 0).

(** [self.train(mode)], inherited from [nn.Module]; [eval()] is
    [train(False)]. *)
Definition train (mode : bool) : M unit :=
  update (λ v,
    mkVanillaVAE (latent_dim v) (hidden_dims v) (in_channels v) (built v)
      (set_training mode <$> encoder v) (encoder_result_shape v)
      (set_training mode <$> fc_mu v) (set_training mode <$> fc_var v)
      (set_training mode <$> decoder_input v) (set_training mode <$> decoder v)
      (set_training mode <$> final_layer v) (set_training mode <$> output_layer v)).

(** ** The shape skeleton of a model

    What follows describes, for the proofs, which layers [build] creates and
    how shapes travel through them.  [layers m] lists the primitive layers of
    [m] in the order in which [call] runs them, with their training flags;
    [run_layers] is the shape of [call]. *)

Fixpoint layers (m : NNModule) : list (Prim * bool) :=
  match m with
  | Leaf p training _ => [(p, training)]
  | Sequential ms =>
      (fix all (ms : list NNModule) : list (Prim * bool) :=
         match ms with
         | [] => []
         | m :: ms' => layers m ++ all ms'
         end) ms
  end.

(** The shape of a result. *)
Definition shape_of (r : Result Tensor) : Result (list Z) :=
  match r with
  | Ok t => Ok (shape t)
  | Raise e => Raise e
  end.

Fixpoint run_layers (ls : list (Prim * bool)) (s : list Z) : Result (list Z) :=
  match ls with
  | [] => Ok s
  | (p, training) :: ls' => s' ← prim_shape p training s; run_layers ls' s'
  end.

Definition tagged (mode : bool) (ps : list Prim) : list (Prim * bool) :=
  (λ p, (p, mode)) <$> ps.

(** The layers of the encoder, of the decoder stack, of the final layer. *)
Fixpoint enc_prims (hidden_dims : list Z) (c : Z) : list Prim :=
  match hidden_dims with
  | [] => []
  | h :: rest => [PConv2d c h 3 2 1; PBatchNorm2d h; PLeakyReLU] ++ enc_prims rest h
  end.

Fixpoint dec_prims (hidden_dims_r : list Z) : list Prim :=
  match hidden_dims_r with
  | a :: r =>
      match r with
      | b :: _ => [PConvTranspose2d a b 3 2 1 1; PBatchNorm2d b; PLeakyReLU] ++ dec_prims r
      | [] => []
      end
  | [] => []
  end.

Definition final_prims (c : Z) : list Prim :=
  [PConvTranspose2d c c 3 2 1 1; PBatchNorm2d c; PLeakyReLU].

(** A spatial size after [n] encoder blocks, and after the [n] transposed
    convolutions of the decoder stack and final layer that follow them. *)
Fixpoint shrink (n : nat) (x : Z) : Z :=
  match n with
  | O => x
  | S n' => shrink n' (conv_out x 3 2 1)
  end.

Definition stack_out (n : nat) (x : Z) : Z := 2 ^ Z.of_nat n * shrink n x.

(** The batch-norm layers of the encoder, in training mode, reject a batch
    that leaves a single value per channel: one sample whose encoding is
    1 x 1. *)
Definition single_value (mode : bool) (n : nat) (N H W : Z) : Prop :=
  mode = true ∧ N = 1 ∧ shrink n H = 1 ∧ shrink n W = 1.

(** [built_for mode v H W]: the object [v] carries the layers that [build]
    creates for batches of spatial size [H] x [W], all in training mode
    [mode]. *)
Record built_for (mode : bool) (v : VanillaVAE) (H W : Z) : Prop := mkBuiltFor {
  bf_built : built v = true;
  bf_dims : hidden_dims v ≠ [];
  bf_H : 1 ≤ H;
  bf_W : 1 ≤ W;
  bf_latent : 0 ≤ latent_dim v;
  bf_channels : 0 < default 0 (last (hidden_dims v));
  bf_encoder : ∃ m, encoder v = Some m ∧
    layers m = tagged mode (enc_prims (hidden_dims v) (in_channels v));
  bf_shape : encoder_result_shape v =
    Some [default 0 (last (hidden_dims v));
          shrink (length (hidden_dims v)) H; shrink (length (hidden_dims v)) W];
  bf_fc_mu : ∃ m, fc_mu v = Some m ∧
    layers m = [(PLinear (prod_Z (default [] (encoder_result_shape v))) (latent_dim v), mode)];
  bf_fc_var : ∃ m, fc_var v = Some m ∧
    layers m = [(PLinear (prod_Z (default [] (encoder_result_shape v))) (latent_dim v), mode)];
  bf_decoder_input : ∃ m, decoder_input v = Some m ∧
    layers m = [(PLinear (latent_dim v) (prod_Z (default [] (encoder_result_shape v))), mode)];
  bf_decoder : ∃ m, decoder v = Some m ∧
    layers m = tagged mode (dec_prims (reverse (hidden_dims v)));
  bf_final_layer : ∃ m, final_layer v = Some m ∧
    layers m = tagged mode (final_prims (default 0 (head (hidden_dims v))));
  bf_output_layer : ∃ m, output_layer v = Some m ∧
    layers m = [(PConv2d (default 0 (head (hidden_dims v))) (in_channels v)
                   (stack_out (length (hidden_dims v)) W - W + 3) 1 1, mode)]
}.

(** [built_by w0 batch device mode w]: the world [w] holds a model that
    [build] completed on [batch], starting from [w0], and whose layers are in
    training mode [mode]: as [build] left them, or after calls of [train].
    The generator may have been used since. *)
Inductive built_by (w0 : World) (batch : Tensor) (device : Device) : bool → World → Prop :=
| built_by_build w1 w :
    build batch device w0 = (Ok (), w1) →
    self w = self w1 →
    built_by w0 batch device true w
| built_by_train mode mode' w w' :
    built_by w0 batch device mode w →
    self w' = self (train mode' w).2 →
    built_by w0 batch device mode' w'.

(** ** The loss as the specification words it

    [tensor_at2 t D b d] is the value of a batch-by-latent tensor at row [b]
    and column [d]; [kld_spec] is the mean over the batch of [-0.5] times the
    sum over the latent dimension of [1 + log_var - mu^2 - exp(log_var)]. *)
Definition tensor_at2 (t : Tensor) (D b d : nat) : R :=
  default (sc_of_Z 0) (data t !! (b * D + d)%nat).

Definition kld_term (mu log_var : R) : R :=
  sc_sub (sc_sub (sc_add (sc_of_Z 1) log_var) (sc_pow mu 2)) (sc_exp log_var).

Definition kld_spec (B D : nat) (mu log_var : Tensor) : R :=
  sc_div
    (total ((λ b, sc_mul (sc_neg sc_half)
                    (total ((λ d, kld_term (tensor_at2 mu D b d) (tensor_at2 log_var D b d))
                              <$> seq 0 D)))
              <$> seq 0 B))
    (sc_of_Z (Z.of_nat B)).

(** ** What a method leaves alone *)

(** The method does not touch the world. *)
Definition keeps_world {A} (m : M A) : Prop := ∀ w, (m w).2 = w.
(** The method does not touch the model object. *)
Definition keeps_self {A} (m : M A) : Prop := ∀ w, self (m w).2 = self w.
(** The method does not touch the [built] flag. *)
Definition keeps_built {A} (m : M A) : Prop := ∀ w, built (self (m w).2) = built (self w).
(** The method sets [built] when it returns and leaves it when it raises. *)
Definition sets_built {A} (m : M A) : Prop :=
  ∀ w, match (m w).1 with
       | Ok _ => built (self (m w).2) = true
       | Raise _ => built (self (m w).2) = built (self w)
       end.
(** On a built model the method does not raise the guard's error, and the
    model stays built. *)
Definition guard_free {A} (m : M A) : Prop :=
  ∀ w, built (self w) = true →
       (m w).1 ≠ Raise (AttributeError build_first) ∧ built (self (m w).2) = true.
(** A result that is not an [AttributeError]. *)
Definition no_attribute_error {A} (r : Result A) : Prop :=
  ∀ msg, r ≠ Raise (AttributeError msg).

End VAE.

(** ** A rational backend for evaluation

    Shapes, exceptions and the flow of control do not depend on the backend;
    this instance serves to run the model on concrete inputs.  Scalars are
    rationals, the exponential is cut to its Taylor polynomial of degree two,
    kernels answer zeros of the right count, and the generator is a counter
    that hands out its successive values. *)
Module Reference.

Definition q_exp (x : Q) : Q := (1 + x + x * x / 2)%Q.

Definition q_randn (n : nat) (g : nat) : list Q * nat :=
  ((λ i, inject_Z (Z.of_nat i)) <$> seq g n, (g + n)%nat).

Definition q_kernel (p : Prim) (training : bool) (w : option nat)
    (s : list Z) (d : list Q) : list Q :=
  match prim_shape p training s with
  | Ok s' => replicate (Z.to_nat (foldr Z.mul 1 s')) 0%Q
  | Raise _ => []
  end.

Definition q_opp_involutive (x : Q) : Qopp (Qopp x) = x :=
  match x with
  | Qmake n d => f_equal (λ n, Qmake n d) (Z.opp_involutive n)
  end.

Definition q_randn_length (n g : nat) : length (q_randn n g).1 = n :=
  eq_trans (length_fmap _ _) (length_seq _ _).

#[export] Instance backend : Backend := {|
  R := Q;
  sc_of_Z := inject_Z;
  sc_half := (1 # 2)%Q;
  sc_add := Qplus;
  sc_sub := Qminus;
  sc_mul := Qmult;
  sc_div := Qdiv;
  sc_neg := Qopp;
  sc_exp := q_exp;
  sc_pow := Qpower;
  sc_neg_involutive := q_opp_involutive;
  Gen := nat;
  randn_values := q_randn;
  randn_values_length := q_randn_length;
  Params := nat;
  init_params := λ _ g, (g, S g);
  kernel_values := q_kernel
|}.

(** A batch of zeros of the given shape. *)
Definition zeros (s : list Z) : Tensor :=
  mkTensor s (replicate (Z.to_nat (foldr Z.mul 1 s)) 0%Q) false.

Definition fresh (in_channels latent_dim : Z) (hidden_dims : option (list Z)) : World :=
  mkWorld (__init__ in_channels latent_dim hidden_dims) 0%nat.

End Reference.

(** * Proofs *)

Create HintDb frame.

Section Shapes.
Context `{BK : Backend}.

(** ** Running the monad *)

Lemma bind_run {A B} (m : M A) (f : A → M B) (w : World) :
  (m ≫= f) w = match m w with
               | (Ok a, w') => f a w'
               | (Raise e, w') => (Raise e, w')
               end.
Proof. reflexivity. Qed.

Lemma bind_ok {A B} (m : M A) (f : A → M B) w a w' :
  m w = (Ok a, w') → (m ≫= f) w = f a w'.
Proof. intros E. by rewrite bind_run, E. Qed.

Lemma bind_raise {A B} (m : M A) (f : A → M B) w e w' :
  m w = (Raise e, w') → (m ≫= f) w = (Raise e, w').
Proof. intros E. by rewrite bind_run, E. Qed.

Lemma bind_inv {A B} (m : M A) (f : A → M B) w b w' :
  (m ≫= f) w = (Ok b, w') → ∃ a w1, m w = (Ok a, w1) ∧ f a w1 = (Ok b, w').
Proof.
  rewrite bind_run. destruct (m w) as [[a|e] w1]; [eauto | discriminate].
Qed.

(** ** Shapes through modules *)

Lemma NNModule_nested_ind (P : NNModule → Prop) :
  (∀ p training w, P (Leaf p training w)) →
  (∀ ms, Forall P ms → P (Sequential ms)) →
  ∀ m, P m.
Proof.
  intros HL HS. fix IH 1. intros [p training w | ms].
  - apply HL.
  - apply HS. induction ms as [| m ms IHms]; constructor; [apply IH | exact IHms].
Qed.

Lemma run_layers_app ls1 ls2 s :
  run_layers (ls1 ++ ls2) s = (s' ← run_layers ls1 s; run_layers ls2 s').
Proof.
  revert s. induction ls1 as [| [p tr] ls1 IH]; intros s; simpl; [done |].
  destruct (prim_shape p tr s) as [s' | e]; simpl; [apply IH | done].
Qed.

Lemma call_shape (m : NNModule) (t : Tensor) :
  shape_of (call m t) = run_layers (layers m) (shape t).
Proof.
  revert t. induction m as [p tr w | ms IH] using NNModule_nested_ind; intros t.
  - simpl. destruct (prim_shape p tr (shape t)); done.
  - simpl. revert t. induction IH as [| m ms Hm _ IHms]; intros t; [done |].
    rewrite run_layers_app. specialize (Hm t).
    destruct (call m t) as [t' | e]; simpl in *.
    + rewrite <- Hm. simpl. apply IHms.
    + by rewrite <- Hm.
Qed.

Lemma call_ok m t s :
  run_layers (layers m) (shape t) = Ok s → ∃ t', call m t = Ok t' ∧ shape t' = s.
Proof.
  rewrite <- call_shape. destruct (call m t) as [t' | e]; simpl; [| done].
  intros [= <-]. eauto.
Qed.

Lemma call_raise m t e :
  run_layers (layers m) (shape t) = Raise e → call m t = Raise e.
Proof.
  rewrite <- call_shape. destruct (call m t) as [t' | e']; simpl; [done |].
  by intros [= ->].
Qed.

Lemma call_inv m t t' :
  call m t = Ok t' → run_layers (layers m) (shape t) = Ok (shape t').
Proof. intros E. by rewrite <- call_shape, E. Qed.

Lemma layers_set_training mode m :
  layers (set_training mode m) = (λ x, (x.1, mode)) <$> layers m.
Proof.
  induction m as [p tr w | ms IH] using NNModule_nested_ind; [done |].
  simpl. induction IH as [| m ms Hm _ IHms]; [done |].
  simpl. rewrite fmap_app, <- Hm, <- IHms. done.
Qed.

(** ** Arithmetic of the spatial sizes *)

Lemma conv_half x :
  1 ≤ x → 1 ≤ conv_out x 3 2 1 ∧ x ≤ 2 * conv_out x 3 2 1 ≤ x + 1.
Proof. unfold conv_out. intros Hx. Z.div_mod_to_equations. lia. Qed.

Lemma convT_double x : convT_out x 3 2 1 1 = 2 * x.
Proof. unfold convT_out. lia. Qed.

Lemma conv_stride1 h k : conv_out h k 1 1 = h + 3 - k.
Proof. unfold conv_out. rewrite Z.div_1_r. lia. Qed.

Lemma shrink_pos n x : 1 ≤ x → 1 ≤ shrink n x.
Proof.
  revert x. induction n as [| n IH]; intros x Hx; simpl; [done |].
  apply IH. by apply conv_half.
Qed.

Lemma shrink_one n : shrink n 1 = 1.
Proof. induction n as [| n IH]; simpl; [done |]. exact IH. Qed.

Lemma stack_out_bounds n x :
  1 ≤ x →
  x ≤ stack_out n x ∧ stack_out n x < x + 2 ^ Z.of_nat n ∧ 2 ^ Z.of_nat n ≤ stack_out n x.
Proof.
  unfold stack_out. revert x. induction n as [| n IH]; intros x Hx.
  - simpl. lia.
  - destruct (conv_half x Hx) as (H1 & H2 & H3).
    specialize (IH _ H1). simpl shrink.
    rewrite Nat2Z.inj_succ, Z.pow_succ_r by lia.
    set (P := 2 ^ Z.of_nat n) in *. set (s := shrink n (conv_out x 3 2 1)) in *.
    assert (2 * P * s = 2 * (P * s)) as -> by lia. clearbody P s. lia.
Qed.

Lemma product_one N h w : 1 ≤ h → 1 ≤ w → N * h * w = 1 → N = 1 ∧ h = 1 ∧ w = 1.
Proof.
  intros Hh Hw E.
  apply Z.eq_mul_1_nonneg' in E as [E ->]; [| lia].
  apply Z.eq_mul_1_nonneg' in E as [-> ->]; [done | lia].
Qed.

(** ** Shapes through the layers that [build] creates *)

Lemma enc_run mode hs c N H W :
  hs ≠ [] → 1 ≤ H → 1 ≤ W →
  (single_value mode (length hs) N H W →
   run_layers (tagged mode (enc_prims hs c)) [N; c; H; W] = Raise ValueError) ∧
  (¬ single_value mode (length hs) N H W →
   run_layers (tagged mode (enc_prims hs c)) [N; c; H; W]
   = Ok [N; default 0 (last hs); shrink (length hs) H; shrink (length hs) W]).
Proof.
  revert c H W. induction hs as [| h rest IH]; intros c H W Hne HH HW; [done |].
  destruct (conv_half H HH) as (Hh1 & _), (conv_half W HW) as (Hw1 & _).
  cbn [enc_prims tagged fmap list_fmap app run_layers prim_shape length shrink].
  unfold conv2d_hw. rewrite decide_True by lia.
  cbn [mbind Result_bind app prim_shape].
  destruct (mode && bool_decide (N * conv_out H 3 2 1 * conv_out W 3 2 1 = 1)) eqn:Ebn.
  - apply andb_true_iff in Ebn as [-> Ebn%bool_decide_eq_true].
    apply product_one in Ebn as (-> & E1 & E2); [| done..].
    split; [done |]. intros []. unfold single_value. cbn [shrink].
    by rewrite E1, E2, shrink_one.
  - rewrite decide_True by done. cbn [mbind Result_bind].
    destruct rest as [| h' rest'].
    + cbn. split; [| done]. intros (-> & -> & E1 & E2). cbn in E1, E2.
      rewrite E1, E2 in Ebn. done.
    + specialize (IH h (conv_out H 3 2 1) (conv_out W 3 2 1) ltac:(done) Hh1 Hw1).
      rewrite last_cons_cons. exact IH.
Qed.

Lemma enc_run_inv mode hs c N c' H W s :
  hs ≠ [] →
  run_layers (tagged mode (enc_prims hs c)) [N; c'; H; W] = Ok s →
  c' = c ∧ 1 ≤ H ∧ 1 ≤ W ∧ ¬ single_value mode (length hs) N H W ∧
  s = [N; default 0 (last hs); shrink (length hs) H; shrink (length hs) W].
Proof.
  intros Hne E. destruct hs as [| h rest]; [done |].
  assert (c' = c ∧ 1 ≤ H ∧ 1 ≤ W) as (-> & HH & HW).
  { cbn [enc_prims tagged fmap list_fmap app run_layers prim_shape] in E.
    unfold conv2d_hw in E. case_decide; [lia | done]. }
  destruct (enc_run mode (h :: rest) c N H W Hne HH HW) as [Hfail Hok].
  destruct (decide (mode = true ∧ N = 1 ∧ shrink (length (h :: rest)) H = 1
                    ∧ shrink (length (h :: rest)) W = 1)) as [Hs | Hs].
  - rewrite Hfail in E by exact Hs. done.
  - rewrite Hok in E by exact Hs. injection E as <-. done.
Qed.

Lemma up_block_run mode a b B h w :
  1 ≤ h → 1 ≤ w →
  run_layers (tagged mode [PConvTranspose2d a b 3 2 1 1; PBatchNorm2d b; PLeakyReLU])
    [B; a; h; w] = Ok [B; b; 2 * h; 2 * w].
Proof.
  intros Hh Hw. cbn [tagged fmap list_fmap run_layers prim_shape].
  unfold convT2d_hw. rewrite !convT_double, decide_True by lia.
  cbn [mbind Result_bind app prim_shape].
  rewrite (bool_decide_eq_false_2 (B * (2 * h) * (2 * w) = 1)) by lia.
  rewrite andb_false_r, decide_True by done. done.
Qed.

Lemma dec_prims_cons a b r :
  dec_prims (a :: b :: r)
  = [PConvTranspose2d a b 3 2 1 1; PBatchNorm2d b; PLeakyReLU] ++ dec_prims (b :: r).
Proof. reflexivity. Qed.

Lemma tagged_app mode ps qs : tagged mode (ps ++ qs) = tagged mode ps ++ tagged mode qs.
Proof. apply fmap_app. Qed.

Lemma dec_run mode r a B h w :
  1 ≤ h → 1 ≤ w →
  run_layers (tagged mode (dec_prims (a :: r))) [B; a; h; w]
  = Ok [B; default 0 (last (a :: r)); 2 ^ Z.of_nat (length r) * h; 2 ^ Z.of_nat (length r) * w].
Proof.
  revert a h w. induction r as [| b r IH]; intros a h w Hh Hw.
  - cbn. repeat (f_equal; try lia).
  - rewrite dec_prims_cons, tagged_app, run_layers_app, up_block_run by done.
    cbn [mbind Result_bind].
    rewrite IH by lia. rewrite last_cons_cons.
    cbn [length]. rewrite Nat2Z.inj_succ, Z.pow_succ_r by lia.
    repeat (f_equal; try lia).
Qed.

Lemma final_run mode c B h w :
  1 ≤ h → 1 ≤ w →
  run_layers (tagged mode (final_prims c)) [B; c; h; w] = Ok [B; c; 2 * h; 2 * w].
Proof. apply up_block_run. Qed.

Lemma out_run mode c oc k B h w :
  0 < k → k ≤ h + 2 → k ≤ w + 2 →
  run_layers [(PConv2d c oc k 1 1, mode)] [B; c; h; w] = Ok [B; oc; h + 3 - k; w + 3 - k].
Proof.
  intros. cbn [run_layers prim_shape]. unfold conv2d_hw.
  rewrite decide_True by lia. by rewrite !conv_stride1.
Qed.

Lemma linear_run mode fin fout B :
  run_layers [(PLinear fin fout, mode)] [B; fin] = Ok [B; fout].
Proof. cbn. by rewrite decide_True. Qed.

(** ** Inverting the steps of a method *)

Lemma attr_inv {A} (f : VanillaVAE → A) w a w' :
  attr f w = (Ok a, w') → a = f (self w) ∧ w' = w.
Proof. by intros [= <- <-]. Qed.

Lemma update_inv f w u w' :
  update f w = (Ok u, w') → w' = mkWorld (f (self w)) (gen w).
Proof. by intros [= <-]. Qed.

Lemma lift_inv {A} (r : Result A) w a w' : lift r w = (Ok a, w') → r = Ok a ∧ w' = w.
Proof. by intros [= -> <-]. Qed.

Lemma getattr_inv {A} name (f : VanillaVAE → option A) w a w' :
  getattr name f w = (Ok a, w') → f (self w) = Some a ∧ w' = w.
Proof. unfold getattr. destruct (f (self w)); by intros [= <- <-]. Qed.

Lemma new_layer_inv p sizes w m w' :
  new_layer p sizes w = (Ok m, w') →
  ∃ g, w' = mkWorld (self w) g ∧ layers m = [(p, true)] ∧ Forall (λ d, 0 ≤ d) sizes.
Proof.
  unfold new_layer. case_decide; [| done].
  destruct (init_params p (gen w)) as [ps g]. intros [= <- <-]. eauto.
Qed.

Lemma layers_seq_cons m ms :
  layers (Sequential (m :: ms)) = layers m ++ layers (Sequential ms).
Proof. reflexivity. Qed.

Lemma encoder_blocks_inv hs c w ms w' :
  encoder_blocks hs c w = (Ok ms, w') →
  ∃ g, w' = mkWorld (self w) g ∧
       layers (Sequential ms) = tagged true (enc_prims hs c).
Proof.
  revert c w ms w'. induction hs as [| h rest IH]; intros c w ms w' E.
  - injection E as <- <-. exists (gen w). by destruct w.
  - cbn [encoder_blocks] in E.
    apply bind_inv in E as (conv & w1 & (g1 & -> & L1 & _)%new_layer_inv & E).
    apply bind_inv in E as (bn & w2 & (g2 & -> & L2 & _)%new_layer_inv & E).
    apply bind_inv in E as (ms' & w3 & (g3 & -> & L3)%IH & E).
    injection E as <- <-. exists g3. split; [done |].
    rewrite layers_seq_cons, L3. cbn [layers]. rewrite L1, L2. done.
Qed.

Lemma decoder_blocks_inv r k i w ms w' :
  length r = (i + k + 1)%nat →
  decoder_blocks r (seq i k) w = (Ok ms, w') →
  ∃ g, w' = mkWorld (self w) g ∧
       layers (Sequential ms) = tagged true (dec_prims (drop i r)).
Proof.
  revert i w ms w'. induction k as [| k IH]; intros i w ms w' Hlen E.
  - injection E as <- <-. exists (gen w). split; [by destruct w |].
    destruct (drop i r) as [| a [| b l]] eqn:Ed; [done.. |].
    apply (f_equal length) in Ed. rewrite length_drop in Ed. simpl in Ed. lia.
  - cbn [seq decoder_blocks] in E.
    apply bind_inv in E as (a & w1 & [Ha ->]%lift_inv & E).
    apply bind_inv in E as (b & w2 & [Hb ->]%lift_inv & E).
    apply bind_inv in E as (ct & w3 & (g3 & -> & L3 & _)%new_layer_inv & E).
    apply bind_inv in E as (bn & w4 & (g4 & -> & L4 & _)%new_layer_inv & E).
    apply bind_inv in E as (ms' & w5 & (g5 & -> & L5)%IH & E); [| lia].
    injection E as <- <-. exists g5. split; [done |].
    unfold py_index in Ha, Hb.
    destruct (r !! i) as [a' |] eqn:Ea; [| done]. injection Ha as ->.
    destruct (r !! (i + 1)%nat) as [b' |] eqn:Eb; [| done]. injection Hb as ->.
    rewrite (drop_S _ _ _ Ea). replace (i + 1)%nat with (S i) in Eb by lia.
    rewrite (drop_S _ _ _ Eb) in L5 |- *.
    rewrite dec_prims_cons, tagged_app, layers_seq_cons, L5.
    cbn [layers]. rewrite L3, L4. done.
Qed.

End Shapes.

(** Inverting one step of a method that returned. *)
Ltac obj_simpl H :=
  cbn [self gen latent_dim hidden_dims in_channels built encoder encoder_result_shape
       fc_mu fc_var decoder_input decoder final_layer output_layer
       set_encoder set_encoder_result_shape set_fc_mu set_fc_var set_decoder_input
       set_decoder set_final_layer set_output_layer set_built] in H.

Ltac minv_step H :=
  let Hs := fresh "Hs" in
  apply bind_inv in H as (? & ? & Hs & H);
  lazymatch type of Hs with
  | attr _ _ = _ => apply attr_inv in Hs as [-> ->]
  | update _ _ = _ => apply update_inv in Hs as ->
  | getattr _ _ _ = _ => apply getattr_inv in Hs as [Hs ->]; obj_simpl Hs; injection Hs as <-
  | lift _ _ = _ => apply lift_inv in Hs as [Hs ->]
  | encoder_blocks _ _ _ = _ => apply encoder_blocks_inv in Hs as (? & -> & Hs)
  | decoder_blocks _ _ _ = _ => idtac
  | _ => apply new_layer_inv in Hs as (? & -> & Hs & ?)
  end;
  obj_simpl H.

Section Build.
Context `{BK : Backend}.

Lemma reverse_head_last (hs : list Z) :
  hs ≠ [] → ∃ r, reverse hs = default 0 (last hs) :: r ∧ length hs = S (length r).
Proof.
  intros Hne. destruct (reverse hs) as [| a r] eqn:E.
  - apply (f_equal length) in E. rewrite length_reverse in E.
    destruct hs; [done | simpl in E; lia].
  - exists r. split.
    + by rewrite <- head_reverse, E.
    + by rewrite <- (length_reverse hs), E.
Qed.

Lemma output_kernel_eq required_dim current_dim :
  output_kernel required_dim current_dim = current_dim - required_dim + 3.
Proof. unfold output_kernel. rewrite Z.quot_1_r. lia. Qed.

Lemma build_inv batch dev w w' N C H W :
  shape batch = [N; C; H; W] →
  build batch dev w = (Ok (), w') →
  built_for true (self w') H W ∧
  C = in_channels (self w) ∧
  ¬ single_value true (length (hidden_dims (self w))) N H W ∧
  latent_dim (self w') = latent_dim (self w) ∧
  hidden_dims (self w') = hidden_dims (self w) ∧
  in_channels (self w') = in_channels (self w).
Proof.
  intros Hshape E. unfold build in E.
  do 25 minv_step E.
  assert (Hne : hidden_dims (self w) ≠ []).
  { intros Eh. rewrite Eh in *. done. }
  lazymatch goal with
  | Hd : decoder_blocks _ _ _ = _ |- _ =>
      apply decoder_blocks_inv in Hd as (? & -> & Hd);
      [| rewrite length_reverse; destruct (hidden_dims (self w)); [done | simpl; lia]]
  end.
  obj_simpl E. do 17 minv_step E. apply update_inv in E as ->.
  cbn [self gen].
  set (v := self w) in *. set (hs := hidden_dims v) in *.
  set (n := length hs) in *.
  destruct (reverse_head_last hs Hne) as (r & Hrev & Hlen).
  set (cl := default 0 (last hs)) in *.
  (* the encoder on the dummy batch *)
  lazymatch goal with
  | Hc : call (Sequential ?ms) batch = Ok ?t |- _ =>
      apply call_inv in Hc; rewrite Hshape in Hc;
      lazymatch goal with Hl : layers (Sequential ms) = _ |- _ => rewrite Hl in Hc end;
      apply enc_run_inv in Hc as (-> & HH & HW & Hsingle & Henc); [| done]
  end.
  fold v hs n cl in Henc. rewrite Henc in *. cbn [drop] in *.
  set (hn := shrink n H) in *. set (wn := shrink n W) in *.
  assert (1 ≤ hn ∧ 1 ≤ wn) as [Hhn Hwn] by (split; by apply shrink_pos).
  set (F := prod_Z [cl; hn; wn]) in *.
  (* the dummy latent code *)
  rename select (flatten1 _ = _) into Hflat.
  unfold flatten1 in Hflat. rewrite Henc in Hflat. injection Hflat as <-.
  rename select (layers _ = [(PLinear _ F, _)]) into Hdi.
  lazymatch goal with
  | Hc : call ?m (mkTensor _ _ _) = _, Hl : layers ?m = _ |- _ =>
      rename Hc into Hmu; rename Hl into Hfc_mu
  end.
  match goal with
  | Hl : layers _ = [(PLinear F _, _)] |- _ =>
      lazymatch Hl with Hfc_mu => fail | _ => rename Hl into Hfc_var end
  end.
  apply call_inv in Hmu. rewrite Hfc_mu in Hmu. cbn [shape] in Hmu.
  fold F in Hmu. rewrite linear_run in Hmu. injection Hmu as Hmu.
  (* the decoder on the dummy latent code *)
  lazymatch goal with
  | H1 : call _ ?t2 = Ok _, H2 : call _ ?t1 = Ok ?t2,
    H3 : call _ _ = Ok ?t0, H4 : view_infer ?t0 _ = Ok ?t1 |- _ =>
      rename H1 into Hfinal; rename H2 into Hdec;
      rename H3 into Hcall_di; rename H4 into Hview
  end.
  apply call_inv in Hcall_di. rewrite Hdi, <- Hmu, linear_run in Hcall_di.
  injection Hcall_di as Hcall_di.
  unfold view_infer, numel in Hview. rewrite <- Hcall_di in Hview. fold F in Hview.
  case_decide as HF; [| done]. destruct HF as [HF _]. injection Hview as <-.
  assert ((N * (F * 1)) `div` F = N) as HNF.
  { rewrite Z.mul_1_r. apply Z.div_mul. clearbody F. lia. }
  apply call_inv in Hdec. cbn [shape] in Hdec. rewrite HNF in Hdec.
  rename select (layers _ = tagged true (dec_prims _)) into Hdec_layers.
  rewrite drop_0 in Hdec_layers. rewrite Hdec_layers, Hrev, dec_run in Hdec by done.
  injection Hdec as Hdec.
  assert (last (cl :: r) = head hs) as Hlast by (by rewrite <- Hrev, last_reverse).
  rename select (py_last (reverse hs) = Ok _) into Hc0.
  unfold py_last in Hc0. rewrite Hrev, Hlast in Hc0.
  rename select (py_last (reverse hs) = Ok _) into Hc0'.
  unfold py_last in Hc0'. rewrite Hrev, Hlast in Hc0'.
  destruct (head hs) as [c0 |] eqn:Ehead; [| done].
  injection Hc0 as <-. injection Hc0' as <-.
  rewrite Hlast in Hdec. cbn [default] in Hdec.
  rename select (layers _ = [(PConvTranspose2d _ _ _ _ _ _, _)]) into HconvT.
  rename select (layers _ = [(PBatchNorm2d _, _)]) into Hbn.
  lazymatch type of Hfinal with
  | call ?fl _ = _ => assert (Hfl : layers fl = tagged true (final_prims c0))
  end.
  { rewrite !layers_seq_cons, HconvT, Hbn. done. }
  apply call_inv in Hfinal. rewrite Hfl, <- Hdec, final_run in Hfinal by lia.
  injection Hfinal as Hfinal.
  rename select (py_last (shape batch) = _) into Hreq.
  rewrite Hshape in Hreq. injection Hreq as <-.
  rename select (py_last (shape _) = _) into Hcur.
  rewrite <- Hfinal in Hcur. injection Hcur as <-.
  rename select (layers _ = [(PConv2d _ _ _ _ _, _)]) into Hout.
  rewrite output_kernel_eq in Hout.
  assert (2 * (2 ^ Z.of_nat (length r) * wn) = stack_out n W) as Hstack.
  { unfold stack_out. fold wn.
    replace (Z.of_nat n) with (Z.succ (Z.of_nat (length r))) by (unfold n; lia).
    rewrite Z.pow_succ_r by lia. ring. }
  rewrite Hstack in Hout.
  assert (0 < cl) as Hcl.
  { change F with (cl * (hn * (wn * 1))) in HF.
    assert (0 < hn * (wn * 1)) as Hp by (clearbody hn wn; nia).
    by apply (Z.mul_pos_cancel_r _ _ Hp). }
  assert (0 ≤ latent_dim v) as Hld.
  { rename select (Forall _ [latent_dim v; F]) into Hsz.
    by apply Forall_cons in Hsz as [? _]. }
  split; [| done].
  constructor;
    cbn [latent_dim hidden_dims in_channels built encoder encoder_result_shape
         fc_mu fc_var decoder_input decoder final_layer output_layer
         set_encoder set_encoder_result_shape set_fc_mu set_fc_var set_decoder_input
         set_decoder set_final_layer set_output_layer set_built default];
    fold v hs n cl hn wn F; rewrite ?Ehead; cbn [default]; eauto.
Qed.

Lemma require_built_ok w : built (self w) = true → require_built w = (Ok (), w).
Proof. intros E. unfold require_built. rewrite bind_run. cbn. by rewrite E. Qed.

Lemma require_built_raise w :
  built (self w) = false → require_built w = (Raise (AttributeError build_first), w).
Proof. intros E. unfold require_built. rewrite bind_run. cbn. by rewrite E. Qed.

Lemma getattr_ok {A} name (f : VanillaVAE → option A) w a :
  f (self w) = Some a → getattr name f w = (Ok a, w).
Proof. intros E. unfold getattr. by rewrite E. Qed.

Lemma lift_ok {A} (r : Result A) a w : r = Ok a → lift r w = (Ok a, w).
Proof. by intros ->. Qed.

Lemma lift_raise {A} (r : Result A) e w : r = Raise e → lift r w = (@Raise A e, w).
Proof. by intros ->. Qed.

Lemma tagged_retag mode mode' ps :
  (λ x : Prim * bool, (x.1, mode')) <$> tagged mode ps = tagged mode' ps.
Proof. unfold tagged. rewrite <- list_fmap_compose. done. Qed.

Lemma train_built_for mode mode' w H W :
  built_for mode (self w) H W → built_for mode' (self (train mode' w).2) H W.
Proof.
  intros [? ? ? ? ? ? (m1 & E1 & L1) Es (m2 & E2 & L2) (m3 & E3 & L3)
            (m4 & E4 & L4) (m5 & E5 & L5) (m6 & E6 & L6) (m7 & E7 & L7)].
  constructor; cbn; rewrite ?Es; cbn; try done;
    [ rewrite E1 | rewrite E2 | rewrite E3 | rewrite E4 | rewrite E5 | rewrite E6 | rewrite E7 ];
    cbn; eexists; (split; [reflexivity |]); rewrite layers_set_training.
  - by rewrite L1, tagged_retag.
  - rewrite L2, Es. done.
  - rewrite L3, Es. done.
  - rewrite L4, Es. done.
  - by rewrite L5, tagged_retag.
  - by rewrite L6, tagged_retag.
  - by rewrite L7.
Qed.

Lemma built_by_inv w0 batch device mode w N C H W :
  shape batch = [N; C; H; W] →
  built_by w0 batch device mode w →
  built_for mode (self w) H W ∧
  C = in_channels (self w) ∧
  ¬ single_value true (length (hidden_dims (self w))) N H W ∧
  latent_dim (self w) = latent_dim (self w0) ∧
  hidden_dims (self w) = hidden_dims (self w0) ∧
  in_channels (self w) = in_channels (self w0).
Proof.
  intros Hs Hb. induction Hb as [w1 w Hb Ew | mode mode' w w' _ IH Ew].
  - rewrite Ew. destruct (build_inv _ _ _ _ _ _ _ _ Hs Hb) as (Hbf & -> & Hsv & E1 & E2 & E3).
    rewrite E1, E2, E3. done.
  - destruct IH as (Hbf & -> & Hsv & E1 & E2 & E3). rewrite Ew.
    split; [by apply (train_built_for mode) |]. cbn. done.
Qed.

(** A method that returns, returns in the world it leaves. *)
Lemma run_ok {A} (m : M A) (w : World) (a : A) : (m w).1 = Ok a → m w = (Ok a, (m w).2).
Proof. destruct (m w) as [r w']. by intros [= ->]. Qed.

Lemma decode_spec mode w H W z B :
  built_for mode (self w) H W →
  shape z = [B; latent_dim (self w)] →
  ∃ t, decode z w = (Ok t, w) ∧
       shape t = [B; in_channels (self w);
                  stack_out (length (hidden_dims (self w))) H
                  - stack_out (length (hidden_dims (self w))) W + W; W].
Proof.
  intros [Hb Hne HH HW Hld Hcl _ Es _ _
            (di & Edi & Ldi) (dec & Edec & Ldec) (fl & Efl & Lfl) (ol & Eol & Lol)] Hz.
  set (v := self w) in *. set (hs := hidden_dims v) in *. set (n := length hs) in *.
  rewrite Es in Ldi. cbn [default] in Ldi.
  set (cl := default 0 (last hs)) in *.
  set (hn := shrink n H) in *. set (wn := shrink n W) in *.
  assert (1 ≤ hn ∧ 1 ≤ wn) as [Hhn Hwn] by (split; by apply shrink_pos).
  set (F := prod_Z [cl; hn; wn]) in *.
  assert (0 < F) as HF.
  { change F with (cl * (hn * (wn * 1))). clearbody cl hn wn. nia. }
  destruct (reverse_head_last hs Hne) as (r & Hrev & Hlen). fold cl in Hrev.
  destruct (head hs) as [c0 |] eqn:Ehead; [| by destruct hs].
  cbn [default] in Lfl, Lol.
  assert (last (cl :: r) = Some c0) as Hlast by (by rewrite <- Hrev, last_reverse).
  (* the linear map and the reshaping *)
  destruct (call_ok di z [B; F]) as (t1 & Ht1 & Hs1).
  { rewrite Ldi, Hz. apply linear_run. }
  assert (view_infer t1 [cl; hn; wn]
          = Ok (mkTensor [B; cl; hn; wn] (data t1) (requires_grad t1))) as Ht2.
  { unfold view_infer, numel. rewrite Hs1. fold F.
    change (prod_Z [B; F]) with (B * (F * 1)). rewrite Z.mul_1_r.
    rewrite decide_True.
    - by rewrite Z.div_mul by (clearbody F; lia).
    - split; [done |]. apply Z.mod_mul. clearbody F. lia. }
  (* the decoder stack, the final layer, the output convolution *)
  destruct (call_ok dec (mkTensor [B; cl; hn; wn] (data t1) (requires_grad t1))
              [B; c0; 2 ^ Z.of_nat (length r) * hn; 2 ^ Z.of_nat (length r) * wn])
    as (t3 & Ht3 & Hs3).
  { rewrite Ldec, Hrev. cbn [shape]. rewrite dec_run by done. by rewrite Hlast. }
  destruct (call_ok fl t3 [B; c0; stack_out n H; stack_out n W]) as (t4 & Ht4 & Hs4).
  { rewrite Lfl, Hs3, final_run by lia. unfold stack_out. fold hn wn.
    replace (Z.of_nat n) with (Z.succ (Z.of_nat (length r))) by (unfold n; lia).
    rewrite Z.pow_succ_r by lia. repeat (f_equal; try ring). }
  destruct (stack_out_bounds n H HH) as (HbH1 & HbH2 & HbH3).
  destruct (stack_out_bounds n W HW) as (HbW1 & HbW2 & HbW3).
  destruct (call_ok ol t4 [B; in_channels v; stack_out n H - stack_out n W + W; W])
    as (t5 & Ht5 & Hs5).
  { rewrite Lol, Hs4, out_run by lia. repeat (f_equal; try lia). }
  exists t5. split; [| done].
  unfold decode.
  erewrite bind_ok by (by apply require_built_ok).
  erewrite bind_ok by (by apply getattr_ok).
  erewrite bind_ok by (by apply lift_ok).
  erewrite bind_ok by (by apply getattr_ok).
  erewrite bind_ok by (by apply lift_ok).
  erewrite bind_ok by (by apply getattr_ok).
  erewrite bind_ok by (by apply lift_ok).
  erewrite bind_ok by (by apply getattr_ok).
  erewrite bind_ok by (by apply lift_ok).
  erewrite bind_ok by (by apply getattr_ok).
  erewrite bind_ok by (by apply lift_ok).
  done.
Qed.

Lemma flatten1_4d t N c h w :
  shape t = [N; c; h; w] →
  flatten1 t = Ok (mkTensor [N; prod_Z [c; h; w]] (data t) (requires_grad t)).
Proof. intros E. unfold flatten1. by rewrite E. Qed.

Lemma encode_spec mode w H W input N :
  built_for mode (self w) H W →
  shape input = [N; in_channels (self w); H; W] →
  (single_value mode (length (hidden_dims (self w))) N H W →
   encode input w = (Raise ValueError, w)) ∧
  (¬ single_value mode (length (hidden_dims (self w))) N H W →
   ∃ enc fm fv r flat mu log_var,
     encoder (self w) = Some enc ∧ fc_mu (self w) = Some fm ∧ fc_var (self w) = Some fv ∧
     call enc input = Ok r ∧ flatten1 r = Ok flat ∧
     call fm flat = Ok mu ∧ call fv flat = Ok log_var ∧
     encode input w = (Ok [mu; log_var], w) ∧
     shape mu = [N; latent_dim (self w)] ∧ shape log_var = [N; latent_dim (self w)]).
Proof.
  intros [Hb Hne HH HW Hld Hcl (enc & Eenc & Lenc) Es (fm & Efm & Lfm) (fv & Efv & Lfv)
            _ _ _ _] Hin.
  set (v := self w) in *. set (hs := hidden_dims v) in *. set (n := length hs) in *.
  rewrite Es in Lfm, Lfv. cbn [default] in Lfm, Lfv.
  destruct (enc_run mode hs (in_channels v) N H W Hne HH HW) as [Hfail Hok].
  fold n in Hfail, Hok. split; intros Hsv.
  - unfold encode.
    erewrite bind_ok by (by apply require_built_ok).
    erewrite bind_ok by (by apply getattr_ok).
    erewrite bind_raise; [done |]. apply lift_raise, call_raise.
    rewrite Lenc, Hin. by apply Hfail.
  - destruct (call_ok enc input _ ltac:(rewrite Lenc, Hin; by apply Hok)) as (r & Hr & Hsr).
    pose proof (flatten1_4d _ _ _ _ _ Hsr) as Hflat.
    set (flat := mkTensor _ (data r) (requires_grad r)) in Hflat.
    destruct (call_ok fm flat [N; latent_dim v]) as (mu & Hmu & Hsmu).
    { rewrite Lfm. apply linear_run. }
    destruct (call_ok fv flat [N; latent_dim v]) as (lv & Hlv & Hslv).
    { rewrite Lfv. apply linear_run. }
    exists enc, fm, fv, r, flat, mu, lv. repeat (split; [done |]).
    split; [| done]. unfold encode.
    erewrite bind_ok by (by apply require_built_ok).
    erewrite bind_ok by (by apply getattr_ok).
    erewrite bind_ok by (by apply lift_ok).
    erewrite bind_ok by (by apply lift_ok).
    erewrite bind_ok by (by apply getattr_ok).
    erewrite bind_ok by (by apply lift_ok).
    erewrite bind_ok by (by apply getattr_ok).
    erewrite bind_ok by (by apply lift_ok).
    done.
Qed.

End Build.

Section Frame.
Context `{BK : Backend}.

Lemma keeps_world_self {A} (m : M A) : keeps_world m → keeps_self m.
Proof. intros H w. by rewrite H. Qed.

Lemma keeps_self_built {A} (m : M A) : keeps_self m → keeps_built m.
Proof. intros H w. by rewrite H. Qed.

Lemma keeps_world_bind {A B} (m : M A) (f : A → M B) :
  keeps_world m → (∀ a, keeps_world (f a)) → keeps_world (m ≫= f).
Proof.
  intros Hm Hf w. rewrite bind_run. specialize (Hm w).
  destruct (m w) as [[a | e] w1]; simpl in *; subst; [apply Hf | done].
Qed.

Lemma keeps_self_bind {A B} (m : M A) (f : A → M B) :
  keeps_self m → (∀ a, keeps_self (f a)) → keeps_self (m ≫= f).
Proof.
  intros Hm Hf w. rewrite bind_run. specialize (Hm w).
  destruct (m w) as [[a | e] w1]; simpl in *; [by rewrite Hf | done].
Qed.

Lemma keeps_built_bind {A B} (m : M A) (f : A → M B) :
  keeps_built m → (∀ a, keeps_built (f a)) → keeps_built (m ≫= f).
Proof.
  intros Hm Hf w. rewrite bind_run. specialize (Hm w).
  destruct (m w) as [[a | e] w1]; simpl in *; [by rewrite Hf | done].
Qed.

Lemma sets_built_bind {A B} (m : M A) (f : A → M B) :
  keeps_built m → (∀ a, sets_built (f a)) → sets_built (m ≫= f).
Proof.
  intros Hm Hf w. rewrite bind_run. specialize (Hm w).
  destruct (m w) as [[a | e] w1]; simpl in *; [| done].
  specialize (Hf a w1). destruct (f a w1) as [[b | e] w2]; simpl in *; congruence.
Qed.

Lemma guard_free_bind {A B} (m : M A) (f : A → M B) :
  guard_free m → (∀ a, guard_free (f a)) → guard_free (m ≫= f).
Proof.
  intros Hm Hf w Hb. rewrite bind_run. destruct (Hm w Hb) as [Hne Hb1].
  destruct (m w) as [[a | e] w1]; simpl in *; [by apply Hf |].
  split; [| done]. intros [= ->]. by apply Hne.
Qed.

Lemma keeps_world_ret {A} (a : A) : keeps_world (mret a : M A).
Proof. done. Qed.
Lemma keeps_world_raise {A} e : keeps_world (raise e : M A).
Proof. done. Qed.
Lemma keeps_world_lift {A} (r : Result A) : keeps_world (lift r).
Proof. done. Qed.
Lemma keeps_world_attr {A} (f : VanillaVAE → A) : keeps_world (attr f).
Proof. done. Qed.
Lemma keeps_world_getattr {A} name (f : VanillaVAE → option A) : keeps_world (getattr name f).
Proof. intros w. unfold getattr. by destruct (f (self w)). Qed.
Lemma keeps_world_require_built : keeps_world require_built.
Proof.
  apply keeps_world_bind; [apply keeps_world_attr |]. by intros [].
Qed.

Lemma keeps_self_randn sizes : keeps_self (randn sizes).
Proof.
  intros w. unfold randn. case_decide; [| done].
  by destruct (randn_values _ _).
Qed.

Lemma keeps_self_new_layer p sizes : keeps_self (new_layer p sizes).
Proof.
  intros w. unfold new_layer. case_decide; [| done].
  by destruct (init_params _ _).
Qed.

End Frame.

#[export] Hint Resolve keeps_world_ret keeps_world_raise keeps_world_lift keeps_world_attr
  keeps_world_getattr keeps_world_require_built : frame.
#[export] Hint Resolve keeps_self_randn keeps_self_new_layer : frame.

Ltac frame :=
  repeat first
    [ progress intros
    | apply keeps_world_bind
    | apply keeps_self_bind
    | apply keeps_built_bind
    | match goal with |- context [match ?x with _ => _ end] => destruct x end
    | solve [eauto with frame]
    | solve [apply keeps_world_self; eauto with frame]
    | solve [apply keeps_self_built; eauto with frame]
    | solve [apply keeps_self_built, keeps_world_self; eauto with frame] ].

Section Methods.
Context `{BK : Backend}.

Lemma keeps_world_encode input : keeps_world (encode input).
Proof. unfold encode. frame. Qed.

Lemma keeps_world_decode z : keeps_world (decode z).
Proof. unfold decode. frame. Qed.

Lemma keeps_world_loss_function args kwargs : keeps_world (loss_function args kwargs).
Proof. unfold loss_function. frame. Qed.

Lemma keeps_self_reparameterize mu logvar : keeps_self (reparameterize mu logvar).
Proof. unfold reparameterize, randn_like. frame. Qed.

Lemma keeps_self_encode input : keeps_self (encode input).
Proof. apply keeps_world_self, keeps_world_encode. Qed.
Lemma keeps_self_decode z : keeps_self (decode z).
Proof. apply keeps_world_self, keeps_world_decode. Qed.

Lemma keeps_self_forward input : keeps_self (forward input).
Proof.
  unfold forward.
  pose proof keeps_self_encode. pose proof keeps_self_decode.
  pose proof keeps_self_reparameterize. frame.
Qed.

Lemma keeps_self_sample n device : keeps_self (sample n device).
Proof. unfold sample. pose proof keeps_self_decode. frame. Qed.

Lemma keeps_self_generate x : keeps_self (generate x).
Proof. unfold generate. pose proof keeps_self_forward. frame. Qed.

Lemma sets_built_build batch device : sets_built (build batch device).
Proof.
  unfold build.
  assert (∀ hs c, keeps_built (encoder_blocks hs c)) as Henc.
  { intros hs c. apply keeps_self_built. revert c.
    induction hs as [| h rest IH]; intros c; simpl; [frame |].
    unfold nn_Conv2d, nn_BatchNorm2d. frame. }
  assert (∀ r range, keeps_built (decoder_blocks r range)) as Hdec.
  { intros r range. apply keeps_self_built.
    induction range as [| i range IH]; simpl; [frame |].
    unfold nn_ConvTranspose2d, nn_BatchNorm2d. frame. }
  assert (∀ f, (∀ v, built (f v) = built v) → keeps_built (update f)) as Hupd.
  { intros f Hf w. apply Hf. }
  unfold nn_Linear, nn_ConvTranspose2d, nn_BatchNorm2d, nn_Conv2d.
  repeat (apply sets_built_bind; [first [by apply Hupd | apply Henc | apply Hdec | frame] | intros]).
  intros w. done.
Qed.

Lemma keeps_built_train mode : keeps_built (train mode).
Proof. by intros w. Qed.

Lemma prim_shape_no_attribute_error p training s : no_attribute_error (prim_shape p training s).
Proof.
  intros msg. destruct p; cbn; unfold conv2d_hw, convT2d_hw; try done;
    repeat (first [case_decide | case_match]; try done).
Qed.

Lemma run_layers_no_attribute_error ls s : no_attribute_error (run_layers ls s).
Proof.
  intros msg. revert s. induction ls as [| [p tr] ls IH]; intros s; [done |].
  cbn. pose proof (prim_shape_no_attribute_error p tr s msg).
  destruct (prim_shape p tr s); cbn; [apply IH | done].
Qed.

Lemma call_no_attribute_error m t : no_attribute_error (call m t).
Proof.
  intros msg E. apply (run_layers_no_attribute_error (layers m) (shape t) msg).
  by rewrite <- call_shape, E.
Qed.

Lemma guard_free_lift {A} (r : Result A) : no_attribute_error r → guard_free (lift r).
Proof. intros Hr w Hb. split; [apply Hr | done]. Qed.

Lemma guard_free_ret {A} (a : A) : guard_free (mret a : M A).
Proof. intros w Hb. done. Qed.

Lemma guard_free_getattr {A} name (f : VanillaVAE → option A) : guard_free (getattr name f).
Proof. intros w Hb. unfold getattr. by destruct (f (self w)). Qed.

Lemma guard_free_require_built : guard_free require_built.
Proof. intros w Hb. by rewrite require_built_ok. Qed.

Lemma guard_free_randn sizes : guard_free (randn sizes).
Proof.
  intros w Hb. unfold randn. case_decide; [| done]. by destruct (randn_values _ _).
Qed.

Lemma t_binop_no_attribute_error f a b : no_attribute_error (t_binop f a b).
Proof. intros msg. unfold t_binop. repeat (first [case_decide | case_match]; try done). Qed.

Lemma guard_free_encode input : guard_free (encode input).
Proof.
  unfold encode.
  repeat (apply guard_free_bind;
          [first [apply guard_free_require_built | apply guard_free_getattr
                 | apply guard_free_lift; first [apply call_no_attribute_error | intros msg; unfold flatten1; by repeat case_match]]
          | intros]).
  apply guard_free_ret.
Qed.

Lemma guard_free_decode z : guard_free (decode z).
Proof.
  unfold decode.
  repeat (apply guard_free_bind;
          [first [apply guard_free_require_built | apply guard_free_getattr
                 | apply guard_free_lift; first [apply call_no_attribute_error | intros msg; unfold view_infer; by case_decide]]
          | intros]).
  apply guard_free_ret.
Qed.

Lemma guard_free_reparameterize mu logvar : guard_free (reparameterize mu logvar).
Proof.
  unfold reparameterize.
  apply guard_free_bind; [apply guard_free_randn | intros].
  apply guard_free_bind; apply guard_free_lift || intros;
    try apply t_binop_no_attribute_error.
  apply guard_free_lift, t_binop_no_attribute_error.
Qed.

Lemma guard_free_forward input : guard_free (forward input).
Proof.
  unfold forward.
  apply guard_free_bind; [apply guard_free_require_built | intros].
  apply guard_free_bind; [apply guard_free_encode | intros].
  apply guard_free_bind; [apply guard_free_lift; intros msg; unfold unpack2; by repeat case_match | intros [mu lv]].
  apply guard_free_bind; [apply guard_free_reparameterize | intros].
  apply guard_free_bind; [apply guard_free_decode | intros].
  apply guard_free_ret.
Qed.

Lemma guard_free_loss_function args kwargs : guard_free (loss_function args kwargs).
Proof.
  unfold loss_function.
  repeat (apply guard_free_bind;
          [first [apply guard_free_require_built
                 | apply guard_free_lift;
                   first [apply t_binop_no_attribute_error
                         | intros msg;
                           unfold py_index, py_getitem, mse_loss, sum_dim1, mean_dim0;
                           by repeat (first [case_decide | case_match])]]
          | intros]).
  apply guard_free_ret.
Qed.

End Methods.

(** * The claims *)

Section Claims.
Context `{BK : Backend}.

Lemma randn_ok sizes w :
  Forall (λ d, 0 ≤ d) sizes →
  ∃ z g, randn sizes w = (Ok z, mkWorld (self w) g) ∧ shape z = sizes ∧
         data z = (randn_values (Z.to_nat (prod_Z sizes)) (gen w)).1 ∧
         g = (randn_values (Z.to_nat (prod_Z sizes)) (gen w)).2 ∧
         requires_grad z = false.
Proof.
  intros Hs. unfold randn. rewrite decide_True by done.
  destruct (randn_values _ _) as [vs g]. by eexists _, _.
Qed.

(** The shape of [decode].  For a model built on a batch of shape
    [N, C, H, W] and a latent tensor [z] of shape [B, latent_dim], [decode z]
    returns a tensor of shape [B, C, H', W].  The kernel of the output
    convolution is computed from the width of the decoder stack's dummy
    output alone, so the decoded width is [W], while the decoded height [H']
    is [H] plus the overshoot of the stack in height minus its overshoot in
    width; [H' = H] when the two overshoots agree, in particular for square
    batches. *)
Theorem decode_shape w0 batch device mode w N C H W z B :
  shape batch = [N; C; H; W] →
  built_by w0 batch device mode w →
  shape z = [B; latent_dim (self w)] →
  let n := length (hidden_dims (self w)) in
  ∃ ol c t,
    output_layer (self w) = Some ol ∧
    layers ol = [(PConv2d c C (output_kernel W (stack_out n W)) 1 1, mode)] ∧
    decode z w = (Ok t, w) ∧
    shape t = [B; C; H + (stack_out n H - H) - (stack_out n W - W); W] ∧
    (stack_out n H - H = stack_out n W - W → shape t = [B; C; H; W]) ∧
    (H = W → shape t = [B; C; H; W]).
Proof.
  intros Hs Hb Hz n.
  destruct (built_by_inv _ _ _ _ _ _ _ _ _ Hs Hb) as (Hbf & -> & _).
  destruct (decode_spec _ _ _ _ _ _ Hbf Hz) as (t & Ht & Hst). fold n in Hst.
  destruct (bf_output_layer _ _ _ _ Hbf) as (ol & Eol & Lol). fold n in Lol.
  exists ol, (default 0 (head (hidden_dims (self w)))), t.
  rewrite output_kernel_eq.
  assert (shape t = [B; in_channels (self w);
                     H + (stack_out n H - H) - (stack_out n W - W); W]) as Hst'.
  { rewrite Hst. repeat (f_equal; try lia). }
  repeat (split; [done |]). split.
  - intros E. rewrite Hst'. repeat (f_equal; try lia).
  - intros ->. rewrite Hst'. repeat (f_equal; try lia).
Qed.

(** C5 (amended).  For a built model and an input batch of shape
    [N, C, H, W] with the channels and spatial size of the build batch,
    [encode] returns the two-element list [mu, log_var], each element of shape
    [N, latent_dim] and obtained by applying [fc_mu], respectively [fc_var],
    to the flattened output of the encoder -- unless the batch-norm layers
    are in training mode and the batch is a single sample whose encoding is
    1 x 1, which they reject with a [ValueError]. *)
Theorem encode_shape w0 batch device mode w N0 C H W input N :
  shape batch = [N0; C; H; W] →
  built_by w0 batch device mode w →
  shape input = [N; C; H; W] →
  let n := length (hidden_dims (self w)) in
  (¬ single_value mode n N H W →
   ∃ enc fm fv r flat mu log_var,
     encoder (self w) = Some enc ∧ fc_mu (self w) = Some fm ∧ fc_var (self w) = Some fv ∧
     call enc input = Ok r ∧ flatten1 r = Ok flat ∧
     call fm flat = Ok mu ∧ call fv flat = Ok log_var ∧
     encode input w = (Ok [mu; log_var], w) ∧
     shape mu = [N; latent_dim (self w)] ∧ shape log_var = [N; latent_dim (self w)]) ∧
  (single_value mode n N H W → encode input w = (Raise ValueError, w)).
Proof.
  intros Hs Hb Hin n.
  destruct (built_by_inv _ _ _ _ _ _ _ _ _ Hs Hb) as (Hbf & -> & _).
  destruct (encode_spec _ _ _ _ _ _ Hbf Hin) as [Hfail Hok]. by split.
Qed.

(** The shape of [sample].  For a built model and a positive [num_samples],
    [sample] draws a [num_samples] x [latent_dim] tensor from the generator
    and returns [decode] of it: a batch of [num_samples] images of shape
    [num_samples, C, H', W], with the decoded height [H'] of [decode_shape],
    equal to [H] for square build batches. *)
Theorem sample_shape w0 batch device mode w N C H W num_samples current_device :
  shape batch = [N; C; H; W] →
  built_by w0 batch device mode w →
  0 < num_samples →
  let n := length (hidden_dims (self w)) in
  ∃ z w1 t,
    randn [num_samples; latent_dim (self w)] w = (Ok z, w1) ∧
    shape z = [num_samples; latent_dim (self w)] ∧
    data z = (randn_values (Z.to_nat (num_samples * latent_dim (self w))) (gen w)).1 ∧
    decode (to z current_device) w1 = (Ok t, w1) ∧
    sample num_samples current_device w = (Ok t, w1) ∧
    shape t = [num_samples; C; H + (stack_out n H - H) - (stack_out n W - W); W] ∧
    (H = W → shape t = [num_samples; C; H; W]).
Proof.
  intros Hs Hb Hn n.
  destruct (built_by_inv _ _ _ _ _ _ _ _ _ Hs Hb) as (Hbf & -> & _).
  pose proof (bf_latent _ _ _ _ Hbf) as Hld.
  destruct (randn_ok [num_samples; latent_dim (self w)] w) as (z & g & Hz & Hsz & Hdz & _).
  { repeat constructor; lia. }
  set (w1 := mkWorld (self w) g) in *.
  assert (built_for mode (self w1) H W) as Hbf1 by done.
  destruct (decode_spec mode w1 H W (to z current_device) num_samples Hbf1 Hsz)
    as (t & Ht & Hst).
  cbn [self w1] in Hst. fold n in Hst.
  exists z, w1, t.
  assert (shape t = [num_samples; in_channels (self w);
                     H + (stack_out n H - H) - (stack_out n W - W); W]) as Hst'.
  { rewrite Hst. repeat (f_equal; try lia). }
  split; [done |]. split; [done |]. split.
  { rewrite Hdz. cbn. by rewrite Z.mul_1_r. }
  split; [done |]. split.
  { unfold sample. erewrite bind_ok by reflexivity.
    erewrite bind_ok by exact Hz. erewrite bind_ok by exact Ht. done. }
  split; [done |]. intros ->. rewrite Hst'. repeat (f_equal; try lia).
Qed.

Lemma enc_run_4d mode hs c s s' :
  hs ≠ [] → run_layers (tagged mode (enc_prims hs c)) s = Ok s' →
  ∃ N C H W, s = [N; C; H; W].
Proof.
  intros Hne E. destruct hs as [| h rest]; [done |].
  cbn [enc_prims tagged fmap list_fmap app run_layers prim_shape] in E.
  destruct s as [| N [| C [| H [| W [| ? ?]]]]]; try done.
  - unfold conv2d_hw in E. case_decide; done.
  - eauto.
Qed.

Lemma build_batch_4d batch device w w' :
  build batch device w = (Ok (), w') → ∃ N C H W, shape batch = [N; C; H; W].
Proof.
  intros E. unfold build in E. do 25 minv_step E.
  assert (Hne : hidden_dims (self w) ≠ []).
  { intros Eh. rewrite Eh in *. done. }
  rename select (call _ batch = _) into Hc. apply call_inv in Hc.
  rename select (layers _ = tagged true (enc_prims _ _)) into Hl. rewrite Hl in Hc.
  by eapply enc_run_4d.
Qed.

(** C3.  While [built] is false, [encode], [decode], [forward] and
    [loss_function] raise the guard's [AttributeError] and do nothing else;
    once [built] is true they do not raise it, whatever they are given; and
    a [build] that returns leaves [built] true. *)
Theorem guard_until_built :
  (∀ w input z args kwargs,
     if built (self w) then
       (encode input w).1 ≠ Raise (AttributeError build_first) ∧
       (decode z w).1 ≠ Raise (AttributeError build_first) ∧
       (forward input w).1 ≠ Raise (AttributeError build_first) ∧
       (loss_function args kwargs w).1 ≠ Raise (AttributeError build_first)
     else
       encode input w = (Raise (AttributeError build_first), w) ∧
       decode z w = (Raise (AttributeError build_first), w) ∧
       forward input w = (Raise (AttributeError build_first), w) ∧
       loss_function args kwargs w = (Raise (AttributeError build_first), w)) ∧
  (∀ batch device w,
     match build batch device w with
     | (Ok _, w') => built (self w') = true
     | (Raise _, _) => True
     end).
Proof.
  split.
  - intros w input z args kwargs. destruct (built (self w)) eqn:Hb.
    + repeat split.
      * by apply guard_free_encode.
      * by apply guard_free_decode.
      * by apply guard_free_forward.
      * by apply guard_free_loss_function.
    + pose proof (require_built_raise w Hb) as Hg.
      repeat split; by apply bind_raise.
  - intros batch device w. pose proof (sets_built_build batch device w) as Hs.
    by destruct (build batch device w) as [[[] | e] w'].
Qed.

(** C8.  [__init__] creates no layer and leaves [built] false, taking
    [[32, 64, 128, 256, 512]] for [hidden_dims] when given [None].  A [build]
    that returns has set [built] and has created every layer, sized from the
    shape of its batch; a [build] that raises leaves [built] as it was.  No
    other method changes [built].  So [built] goes from false to true in
    [build] and nowhere else, and never back. *)
Theorem lazy_construction :
  (∀ ic ld hd,
     let v := __init__ ic ld hd in
     built v = false ∧ in_channels v = ic ∧ latent_dim v = ld ∧
     hidden_dims v = default [32; 64; 128; 256; 512] hd ∧
     encoder v = None ∧ encoder_result_shape v = None ∧ fc_mu v = None ∧
     fc_var v = None ∧ decoder_input v = None ∧ decoder v = None ∧
     final_layer v = None ∧ output_layer v = None) ∧
  (∀ batch device w,
     match build batch device w with
     | (Ok _, w') =>
         built (self w') = true ∧
         ∃ N H W, shape batch = [N; in_channels (self w); H; W] ∧
                  built_for true (self w') H W
     | (Raise _, w') => built (self w') = built (self w)
     end) ∧
  (∀ input, keeps_built (encode input)) ∧
  (∀ z, keeps_built (decode z)) ∧
  (∀ mu logvar, keeps_built (reparameterize mu logvar)) ∧
  (∀ input, keeps_built (forward input)) ∧
  (∀ args kwargs, keeps_built (loss_function args kwargs)) ∧
  (∀ num_samples current_device, keeps_built (sample num_samples current_device)) ∧
  (∀ x, keeps_built (generate x)) ∧
  (∀ mode, keeps_built (train mode)).
Proof.
  split; [by intros ic ld [hd |] |]. split.
  - intros batch device w. pose proof (sets_built_build batch device w) as Hs.
    destruct (build batch device w) as [[[] | e] w'] eqn:E; [| done].
    split; [done |].
    destruct (build_batch_4d _ _ _ _ E) as (N & C & H & W & Hshape).
    destruct (build_inv _ _ _ _ _ _ _ _ Hshape E) as (Hbf & -> & _). eauto.
  - split; [intros; apply keeps_self_built, keeps_self_encode |].
    split; [intros; apply keeps_self_built, keeps_self_decode |].
    split; [intros; apply keeps_self_built, keeps_self_reparameterize |].
    split; [intros; apply keeps_self_built, keeps_self_forward |].
    split; [intros; apply keeps_self_built, keeps_world_self, keeps_world_loss_function |].
    split; [intros; apply keeps_self_built, keeps_self_sample |].
    split; [intros; apply keeps_self_built, keeps_self_generate |].
    intros; apply keeps_built_train.
Qed.

(** C9.  On a model that is not built, [sample] (given a count that is not
    negative) draws its latent tensor and then fails inside [decode], and
    [generate] fails inside [forward], both with the guard's
    [AttributeError], although neither tests [built] itself; the four guarded
    methods fail the same way. *)
Theorem inference_needs_build w num_samples current_device x args kwargs :
  built (self w) = false →
  0 ≤ num_samples → 0 ≤ latent_dim (self w) →
  (∃ z w1,
     randn [num_samples; latent_dim (self w)] w = (Ok z, w1) ∧
     decode (to z current_device) w1 = (Raise (AttributeError build_first), w1) ∧
     sample num_samples current_device w = (Raise (AttributeError build_first), w1)) ∧
  forward x w = (Raise (AttributeError build_first), w) ∧
  generate x w = (Raise (AttributeError build_first), w) ∧
  encode x w = (Raise (AttributeError build_first), w) ∧
  decode x w = (Raise (AttributeError build_first), w) ∧
  loss_function args kwargs w = (Raise (AttributeError build_first), w).
Proof.
  intros Hb Hn Hld.
  pose proof (require_built_raise w Hb) as Hg.
  assert (forward x w = (Raise (AttributeError build_first), w)) as Hf
    by (by apply bind_raise).
  split; [| repeat split; by apply bind_raise].
  destruct (randn_ok [num_samples; latent_dim (self w)] w) as (z & g & Hz & _).
  { repeat constructor; lia. }
  exists z, (mkWorld (self w) g).
  assert (decode (to z current_device) (mkWorld (self w) g)
          = (Raise (AttributeError build_first), mkWorld (self w) g)) as Hd.
  { apply bind_raise. by apply require_built_raise. }
  repeat split; [done.. |].
  unfold sample. erewrite bind_ok by reflexivity. erewrite bind_ok by exact Hz.
  by erewrite bind_raise by exact Hd.
Qed.

Lemma t_binop_same f a b :
  shape a = shape b →
  t_binop f a b
  = Ok (mkTensor (shape a) (zip_with f (data a) (data b)) (requires_grad a || requires_grad b)).
Proof. intros E. unfold t_binop. by rewrite decide_True. Qed.

Lemma reparameterize_run mu logvar w :
  shape mu = shape logvar →
  Forall (λ d, 0 ≤ d) (shape logvar) →
  ∃ eps g,
    randn_like (t_exp (t_rmul sc_half logvar)) w = (Ok eps, mkWorld (self w) g) ∧
    shape eps = shape mu ∧
    data eps = (randn_values (Z.to_nat (numel logvar)) (gen w)).1 ∧
    reparameterize mu logvar w
    = (Ok (mkTensor (shape mu)
             (zip_with sc_add
                (zip_with sc_mul (data eps) (sc_exp <$> (sc_mul sc_half <$> data logvar)))
                (data mu))
             (requires_grad logvar || requires_grad mu)),
       mkWorld (self w) g).
Proof.
  intros Hs Hnn.
  destruct (randn_ok (shape logvar) w Hnn) as (eps & g & Heps & Hse & Hde & _ & Hrg).
  exists eps, g. unfold reparameterize, randn_like. cbn [t_exp t_rmul t_map shape].
  split; [done |]. split; [congruence |]. split; [done |].
  erewrite bind_ok by exact Heps.
  unfold t_mul, t_add. rewrite t_binop_same by done.
  erewrite bind_ok by reflexivity.
  rewrite t_binop_same by (cbn; congruence).
  cbn. rewrite Hrg, Hse, Hs. done.
Qed.

(** C4.  For [mu] and [logvar] of one shape, [reparameterize] draws a noise
    tensor [eps] of that shape from the generator and returns, index by
    index, [eps * exp(0.5 * logvar) + mu]: the reparameterisation of a sample
    with mean [mu] and variance [exp(logvar)] by standard noise. *)
Theorem reparameterize_formula mu logvar w :
  shape mu = shape logvar → wf mu → wf logvar →
  ∃ eps t w',
    randn_like (t_exp (t_rmul sc_half logvar)) w = (Ok eps, w') ∧
    reparameterize mu logvar w = (Ok t, w') ∧
    shape eps = shape mu ∧ wf eps ∧ shape t = shape mu ∧ wf t ∧
    ∀ i e l m,
      data eps !! i = Some e → data logvar !! i = Some l → data mu !! i = Some m →
      data t !! i = Some (sc_add (sc_mul e (sc_exp (sc_mul sc_half l))) m).
Proof.
  intros Hs [Hnm Hlm] [Hnl Hll].
  destruct (reparameterize_run mu logvar w Hs Hnl) as (eps & g & Heps & Hse & Hde & Hr).
  assert (length (data eps) = Z.to_nat (numel mu)) as Hle.
  { rewrite Hde, randn_values_length. unfold numel. by rewrite Hs. }
  eexists eps, _, _. split; [exact Heps |]. split; [exact Hr |].
  split; [done |]. split.
  { split; [by rewrite Hse |]. unfold numel in *. by rewrite Hse. }
  split; [done |]. split.
  { split; [done |]. unfold numel in *. cbn [data shape].
    rewrite !length_zip_with, !length_fmap. rewrite Hs in *. lia. }
  intros i e l m He Hl Hm. cbn [data].
  rewrite !lookup_zip_with, !list_lookup_fmap, He, Hl, Hm. done.
Qed.

(** C6.  For a built model and a valid input (a batch with the channels and
    spatial size of the build batch that the encoder accepts), [forward]
    returns the list [[d, input, mu, log_var]] where [[mu, log_var]] is
    [encode input], [d] is [decode] of [reparameterize mu log_var], in that
    order, and the second element is the input itself. *)
Theorem forward_composition w0 batch device mode w N0 C H W input N :
  shape batch = [N0; C; H; W] →
  built_by w0 batch device mode w →
  shape input = [N; C; H; W] →
  0 ≤ N →
  ¬ single_value mode (length (hidden_dims (self w))) N H W →
  ∃ mu log_var z d w1,
    encode input w = (Ok [mu; log_var], w) ∧
    reparameterize mu log_var w = (Ok z, w1) ∧
    decode z w1 = (Ok d, w1) ∧
    forward input w = (Ok [d; input; mu; log_var], w1) ∧
    [d; input; mu; log_var] !! 1%nat = Some input.
Proof.
  intros Hs Hb Hin HN Hsv.
  destruct (built_by_inv _ _ _ _ _ _ _ _ _ Hs Hb) as (Hbf & -> & _).
  destruct (encode_spec _ _ _ _ _ _ Hbf Hin) as [_ Hok].
  destruct (Hok Hsv) as (? & ? & ? & ? & ? & mu & lv & _ & _ & _ & _ & _ & _ & _ & He & Hsm & Hsl).
  pose proof (bf_latent _ _ _ _ Hbf) as Hld.
  destruct (reparameterize_run mu lv w) as (eps & g & _ & _ & _ & Hz).
  { congruence. } { rewrite Hsl. repeat constructor; lia. }
  set (z := mkTensor _ _ _) in Hz. set (w1 := mkWorld (self w) g) in *.
  assert (built_for mode (self w1) H W) as Hbf1 by done.
  destruct (decode_spec mode w1 H W z N Hbf1) as (d & Hd & _); [exact Hsm |].
  exists mu, lv, z, d, w1. repeat (split; [done |]). split; [| done].
  unfold forward.
  erewrite bind_ok by (apply require_built_ok, Hbf).
  erewrite bind_ok by exact He.
  erewrite bind_ok by reflexivity. cbn beta iota.
  erewrite bind_ok by exact Hz.
  erewrite bind_ok by exact Hd. done.
Qed.

(** ** Reductions of a batch-by-latent tensor *)

Lemma chunks_length {A} n k (l : list A) : length (chunks n k l) = n.
Proof. revert l. induction n as [| n IH]; intros l; simpl; [done | by rewrite IH]. Qed.

Lemma take_index {A} (z : A) k (l : list A) :
  (k ≤ length l)%nat → take k l = (λ d, default z (l !! d)) <$> seq 0 k.
Proof.
  intros Hk. apply list_eq. intros i.
  rewrite list_lookup_fmap. destruct (decide (i < k)%nat) as [Hi | Hi].
  - rewrite lookup_take_lt, lookup_seq_lt by done. cbn.
    destruct (l !! i) eqn:E; [done |]. apply lookup_ge_None in E. lia.
  - rewrite lookup_take_ge, lookup_seq_ge by lia. done.
Qed.

Lemma chunks_index {A} (z : A) n k (l : list A) :
  length l = (n * k)%nat →
  chunks n k l = (λ b, (λ d, default z (l !! (b * k + d)%nat)) <$> seq 0 k) <$> seq 0 n.
Proof.
  revert l. induction n as [| n IH]; intros l Hl; [done |].
  cbn [chunks seq fmap list_fmap]. f_equal.
  - rewrite (take_index z) by lia. done.
  - rewrite IH by (rewrite length_drop; lia).
    rewrite <- fmap_S_seq, <- list_fmap_compose. apply list_fmap_ext.
    intros _ b _. cbn. apply list_fmap_ext. intros _ d _.
    rewrite lookup_drop. do 2 f_equal. lia.
Qed.

Lemma foldl_singletons (a : R) (l : list R) :
  foldl (zip_with sc_add) [a] (chunks (length l) 1 l) = [foldl sc_add a l].
Proof.
  revert a. induction l as [| x l IH]; intros a; [done |].
  cbn [length chunks foldl take drop zip_with]. rewrite drop_0. apply IH.
Qed.

Lemma vsum_singletons n (l : list R) : length l = n → vsum 1 (chunks n 1 l) = [total l].
Proof. intros <-. apply foldl_singletons. Qed.

Lemma sum_dim1_2d (t : Tensor) (B D : nat) :
  shape t = [Z.of_nat B; Z.of_nat D] →
  length (data t) = (B * D)%nat →
  sum_dim1 t = Ok (mkTensor [Z.of_nat B] (total <$> chunks B D (data t)) (requires_grad t)).
Proof.
  intros Hs Hl. unfold sum_dim1. rewrite Hs. cbn [prod_Z foldr].
  rewrite !Nat2Z.id. change (Z.to_nat 1) with 1%nat. rewrite Nat.mul_1_r.
  do 2 f_equal.
  pose proof (chunks_index (sc_of_Z 0) B D (data t) Hl) as Hc.
  assert (Forall (λ b, length b = D) (chunks B D (data t))) as Hrows.
  { rewrite Hc. apply Forall_fmap, Forall_forall. intros b _. cbn.
    by rewrite length_fmap, length_seq. }
  clear Hc. induction Hrows as [| b bs Hb _ IH]; [done |].
  cbn [fmap list_fmap concat]. rewrite vsum_singletons by done. cbn. by f_equal.
Qed.

Lemma mean_dim0_1d (t : Tensor) (B : nat) :
  shape t = [Z.of_nat B] →
  length (data t) = B →
  mean_dim0 t
  = Ok (mkTensor [] [sc_div (total (data t)) (sc_of_Z (Z.of_nat B))] (requires_grad t)).
Proof.
  intros Hs Hl. unfold mean_dim0. rewrite Hs. cbn [prod_Z foldr].
  rewrite Nat2Z.id. change (Z.to_nat 1) with 1%nat.
  by rewrite vsum_singletons.
Qed.

(** The values under the sum, index by index. *)
Lemma kld_terms_index (mu log_var : list R) (D b d : nat) (m l : R) :
  mu !! (b * D + d)%nat = Some m → log_var !! (b * D + d)%nat = Some l →
  default (sc_of_Z 0)
    (zip_with sc_sub
       (zip_with sc_sub (sc_add (sc_of_Z 1) <$> log_var) ((λ x, sc_pow x 2) <$> mu))
       (sc_exp <$> log_var) !! (b * D + d)%nat)
  = kld_term m l.
Proof.
  intros Hm Hl. rewrite !lookup_zip_with, !list_lookup_fmap, Hm, Hl. done.
Qed.

Lemma py_index_ok {A} (l : list A) i a : l !! i = Some a → py_index l i = Ok a.
Proof. intros E. unfold py_index. by rewrite E. Qed.

Lemma kld_rows (mu log_var : Tensor) (B D : nat) :
  length (data mu) = (B * D)%nat → length (data log_var) = (B * D)%nat →
  chunks B D
    (zip_with sc_sub
       (zip_with sc_sub (sc_add (sc_of_Z 1) <$> data log_var)
          ((λ x, sc_pow x 2) <$> data mu))
       (sc_exp <$> data log_var))
  = (λ b, (λ d, kld_term (tensor_at2 mu D b d) (tensor_at2 log_var D b d)) <$> seq 0 D)
      <$> seq 0 B.
Proof.
  intros Hm Hl. rewrite (chunks_index (sc_of_Z 0)).
  - apply list_fmap_ext. intros i b Hb. apply list_fmap_ext. intros j d Hd.
    apply lookup_seq in Hb as [Eb Hb]. apply lookup_seq in Hd as [Ed Hd].
    cbn in Eb, Ed. subst i j. cbn beta.
    assert (b * D + d < B * D)%nat as Hi by nia.
    destruct (data mu !! (b * D + d)%nat) as [m |] eqn:Em;
      [| apply lookup_ge_None in Em; lia].
    destruct (data log_var !! (b * D + d)%nat) as [l |] eqn:El;
      [| apply lookup_ge_None in El; lia].
    unfold tensor_at2. rewrite Em, El. by apply kld_terms_index.
  - rewrite !length_zip_with, !length_fmap. lia.
Qed.

(** C2.  On a built model, for reconstructions and inputs of one shape and
    for [mu] and [log_var] of shape [B, D], [loss_function] returns a dict
    whose ['loss'] entry is the 0-dimensional tensor
    [mse_loss(recons, input) + M_N * kld], where [kld] is the mean over the
    batch of [-0.5] times the sum over the latent dimension of
    [1 + log_var - mu^2 - exp(log_var)]. *)
Theorem loss_value w args kwargs recons input mu log_var kld_weight (B D : nat) :
  built (self w) = true →
  args !! 0%nat = Some recons → args !! 1%nat = Some input →
  args !! 2%nat = Some mu → args !! 3%nat = Some log_var →
  kwargs !! "M_N" = Some kld_weight →
  shape recons = shape input →
  shape mu = [Z.of_nat B; Z.of_nat D] → shape log_var = [Z.of_nat B; Z.of_nat D] →
  length (data mu) = (B * D)%nat → length (data log_var) = (B * D)%nat →
  ∃ d m x loss,
    loss_function args kwargs w = (Ok d, w) ∧
    mse_loss recons input = Ok m ∧ shape m = [] ∧ data m = [x] ∧
    d !! "loss" = Some loss ∧ shape loss = [] ∧
    data loss = [sc_add x (sc_mul kld_weight (kld_spec B D mu log_var))].
Proof.
  intros Hb H0 H1 H2 H3 Hkw Hsri Hsm Hsl Hlm Hll.
  set (m := scalar_tensor (mse_value (data recons) (data input) (numel recons))
              (requires_grad recons || requires_grad input)).
  assert (mse_loss recons input = Ok m) as Hmse.
  { unfold mse_loss. by rewrite decide_True. }
  set (dat := zip_with sc_sub
                (zip_with sc_sub (sc_add (sc_of_Z 1) <$> data log_var)
                   ((λ x, sc_pow x 2) <$> data mu))
                (sc_exp <$> data log_var)).
  assert (length dat = (B * D)%nat) as Hld.
  { unfold dat. rewrite !length_zip_with, !length_fmap. lia. }
  eexists _, m, _, _. split; [| split; [exact Hmse |]].
  - unfold loss_function.
    erewrite bind_ok by (by apply require_built_ok).
    erewrite bind_ok by (by apply lift_ok, py_index_ok).
    erewrite bind_ok by (by apply lift_ok, py_index_ok).
    erewrite bind_ok by (by apply lift_ok, py_index_ok).
    erewrite bind_ok by (by apply lift_ok, py_index_ok).
    erewrite bind_ok by (apply lift_ok; unfold py_getitem; by rewrite Hkw).
    erewrite bind_ok by (by apply lift_ok).
    unfold t_sub, t_add.
    erewrite bind_ok by (apply lift_ok, t_binop_same; cbn; congruence).
    erewrite bind_ok by (apply lift_ok, t_binop_same; cbn; congruence).
    cbn [t_radd t_pow t_exp t_map shape data requires_grad]. fold dat.
    erewrite bind_ok by (apply lift_ok, (sum_dim1_2d _ B D); [by rewrite <- Hsl | done]).
    erewrite bind_ok.
    2:{ apply lift_ok, (mean_dim0_1d _ B); [done |].
        cbn. by rewrite !length_fmap, chunks_length. }
    erewrite bind_ok by (by apply lift_ok, t_binop_same).
    reflexivity.
  - split; [done |]. split; [done |].
    split; [by rewrite lookup_insert_eq |]. split; [done |].
    cbn. do 3 f_equal. unfold kld_spec. f_equal. f_equal.
    unfold dat. rewrite kld_rows by done.
    rewrite <- !list_fmap_compose. done.
Qed.

Lemma t_binop_inv f a b x :
  t_binop f a b = Ok x →
  requires_grad x = requires_grad a || requires_grad b ∧
  ∀ a' b', shape a' = shape a → data a' = data a → shape b' = shape b → data b' = data b →
    ∃ x', t_binop f a' b' = Ok x' ∧ shape x' = shape x ∧ data x' = data x.
Proof.
  unfold t_binop. intros E. split.
  - repeat (first [case_decide | case_match]; try done); by injection E as <-.
  - intros a' b' -> -> -> ->.
    repeat (first [case_decide | case_match]; try done); injection E as <-; eauto.
Qed.

Lemma sum_dim1_rg t x : sum_dim1 t = Ok x → requires_grad x = requires_grad t.
Proof. unfold sum_dim1. repeat case_match; try done; by intros [= <-]. Qed.

Lemma mean_dim0_rg t x : mean_dim0 t = Ok x → requires_grad x = requires_grad t.
Proof. unfold mean_dim0. repeat case_match; try done; by intros [= <-]. Qed.

Lemma mse_loss_rg a b x :
  mse_loss a b = Ok x → requires_grad x = requires_grad a || requires_grad b.
Proof. unfold mse_loss. case_decide; [| done]. by intros [= <-]. Qed.

Lemma py_index_inv {A} (l : list A) i a : py_index l i = Ok a → l !! i = Some a.
Proof. unfold py_index. destruct (l !! i); [by intros [= ->] | done]. Qed.

Lemma py_getitem_inv {A} (d : gmap string A) k a : py_getitem d k = Ok a → d !! k = Some a.
Proof. unfold py_getitem. destruct (d !! k); [by intros [= ->] | done]. Qed.

Lemma t_neg_neg t : data (t_neg (t_neg t)) = data t.
Proof.
  cbn. rewrite <- list_fmap_compose. rewrite <- (list_fmap_id (data t)) at 2.
  apply list_fmap_ext. intros _ x _. apply sc_neg_involutive.
Qed.

(** C10.  In the dict that [loss_function] returns, ['KLD'] is the negation
    of the (detached) KL term [kld_loss] that enters the total
    [loss = recons_loss + M_N * kld_loss]; so ['loss'] has the shape and the
    values of ['Reconstruction_Loss'] plus [M_N] times minus ['KLD'].
    ['Reconstruction_Loss'] and ['KLD'] are cut from the gradient graph,
    while ['loss'] tracks gradients as soon as one of its four operands
    does. *)
Theorem loss_entries w args kwargs d w' :
  loss_function args kwargs w = (Ok d, w') →
  ∃ recons input mu log_var kld_weight recons_loss kld_loss loss,
    args !! 0%nat = Some recons ∧ args !! 1%nat = Some input ∧
    args !! 2%nat = Some mu ∧ args !! 3%nat = Some log_var ∧
    kwargs !! "M_N" = Some kld_weight ∧
    mse_loss recons input = Ok recons_loss ∧
    t_add recons_loss (t_rmul kld_weight kld_loss) = Ok loss ∧
    d !! "loss" = Some loss ∧
    d !! "Reconstruction_Loss" = Some (detach recons_loss) ∧
    d !! "KLD" = Some (t_neg (detach kld_loss)) ∧
    (∃ x, t_add (detach recons_loss)
              (t_rmul kld_weight (t_neg (t_neg (detach kld_loss)))) = Ok x ∧
          shape x = shape loss ∧ data x = data loss) ∧
    requires_grad (detach recons_loss) = false ∧
    requires_grad (t_neg (detach kld_loss)) = false ∧
    requires_grad loss
    = requires_grad recons || requires_grad input || requires_grad mu || requires_grad log_var.
Proof.
  intros E. unfold loss_function in E.
  apply bind_inv in E as (? & w1 & _ & E).
  apply bind_inv in E as (recons & ? & [H0%py_index_inv ->]%lift_inv & E).
  apply bind_inv in E as (input & ? & [H1%py_index_inv ->]%lift_inv & E).
  apply bind_inv in E as (mu & ? & [H2%py_index_inv ->]%lift_inv & E).
  apply bind_inv in E as (log_var & ? & [H3%py_index_inv ->]%lift_inv & E).
  apply bind_inv in E as (kw & ? & [Hkw%py_getitem_inv ->]%lift_inv & E).
  apply bind_inv in E as (rl & ? & [Hrl ->]%lift_inv & E).
  apply bind_inv in E as (x1 & ? & [Hx1 ->]%lift_inv & E).
  apply bind_inv in E as (x2 & ? & [Hx2 ->]%lift_inv & E).
  apply bind_inv in E as (s & ? & [Hsum ->]%lift_inv & E).
  apply bind_inv in E as (kl & ? & [Hmean ->]%lift_inv & E).
  apply bind_inv in E as (loss & ? & [Hloss ->]%lift_inv & E).
  injection E as <- <-.
  exists recons, input, mu, log_var, kw, rl, kl, loss.
  repeat (split; [done |]).
  destruct (t_binop_inv _ _ _ _ Hloss) as [Hrg Hcongr].
  split.
  { apply Hcongr; try done. cbn [t_rmul t_map data]. f_equal. apply (t_neg_neg (detach kl)). }
  split; [done |]. split; [done |].
  rewrite Hrg. cbn [t_rmul t_map requires_grad].
  rewrite (mse_loss_rg _ _ _ Hrl), (mean_dim0_rg _ _ Hmean). cbn [t_rmul t_map requires_grad].
  rewrite (sum_dim1_rg _ _ Hsum).
  destruct (t_binop_inv _ _ _ _ Hx2) as [-> _]. destruct (t_binop_inv _ _ _ _ Hx1) as [-> _].
  cbn. by destruct (requires_grad recons), (requires_grad input),
             (requires_grad mu), (requires_grad log_var).
Qed.

End Claims.

(** * Further properties of the methods *)

Section BuildRuns.
Context `{BK : Backend}.

(** ** Running [build] forward *)

Lemma new_layer_ok p sizes w :
  Forall (λ d, 0 ≤ d) sizes →
  ∃ m g, new_layer p sizes w = (Ok m, mkWorld (self w) g) ∧ layers m = [(p, true)].
Proof.
  intros Hs. unfold new_layer. rewrite decide_True by done.
  destruct (init_params p (gen w)) as [ps g]. by eexists _, _.
Qed.

Lemma encoder_blocks_ok hs c w :
  Forall (λ d, 0 ≤ d) hs → 0 ≤ c →
  ∃ ms g, encoder_blocks hs c w = (Ok ms, mkWorld (self w) g) ∧
          layers (Sequential ms) = tagged true (enc_prims hs c).
Proof.
  intros Hhs. revert c w. induction Hhs as [| h rest Hh _ IH]; intros c w Hc.
  - exists [], (gen w). by destruct w.
  - cbn [encoder_blocks]. unfold nn_Conv2d, nn_BatchNorm2d.
    destruct (new_layer_ok (PConv2d c h 3 2 1) [c; h; 3] w) as (m1 & g1 & E1 & L1).
    { repeat constructor; lia. }
    erewrite bind_ok by exact E1.
    destruct (new_layer_ok (PBatchNorm2d h) [h] (mkWorld (self w) g1)) as (m2 & g2 & E2 & L2).
    { repeat constructor; lia. }
    erewrite bind_ok by exact E2. cbn [self].
    destruct (IH h (mkWorld (self w) g2) Hh) as (ms & g3 & E3 & L3).
    erewrite bind_ok by exact E3. cbn [self].
    exists (Sequential [m1; m2; nn_LeakyReLU] :: ms), g3. split; [done |].
    rewrite layers_seq_cons, L3. cbn [layers]. rewrite L1, L2. done.
Qed.

Lemma decoder_blocks_ok r k i w :
  Forall (λ d, 0 ≤ d) r →
  (k = 0%nat ∨ length r = (i + k + 1)%nat) →
  ∃ ms g, decoder_blocks r (seq i k) w = (Ok ms, mkWorld (self w) g) ∧
          (length r = (i + k + 1)%nat →
           layers (Sequential ms) = tagged true (dec_prims (drop i r))).
Proof.
  intros Hr. revert i w. induction k as [| k IH]; intros i w Hk.
  - exists [], (gen w). split; [by destruct w |]. intros Hlen.
    destruct (drop i r) as [| a [| b l]] eqn:Ed; [done.. |].
    apply (f_equal length) in Ed. rewrite length_drop in Ed. simpl in Ed. lia.
  - destruct Hk as [Hk | Hlen]; [done |].
    destruct (lookup_lt_is_Some_2 r i) as [a Ea]; [lia |].
    destruct (lookup_lt_is_Some_2 r (S i)) as [b Eb]; [lia |].
    assert (0 ≤ a ∧ 0 ≤ b) as [Ha Hb].
    { rewrite Forall_lookup in Hr. split; eapply Hr; eauto. }
    cbn [seq decoder_blocks]. unfold py_index.
    replace (i + 1)%nat with (S i) by lia. rewrite Ea, Eb.
    erewrite bind_ok by reflexivity. erewrite bind_ok by reflexivity.
    unfold nn_ConvTranspose2d, nn_BatchNorm2d.
    destruct (new_layer_ok (PConvTranspose2d a b 3 2 1 1) [a; b; 3] w) as (m1 & g1 & E1 & L1).
    { repeat constructor; lia. }
    erewrite bind_ok by exact E1.
    destruct (new_layer_ok (PBatchNorm2d b) [b] (mkWorld (self w) g1)) as (m2 & g2 & E2 & L2).
    { repeat constructor; lia. }
    erewrite bind_ok by exact E2. cbn [self].
    destruct (IH (S i) (mkWorld (self w) g2)) as (ms & g3 & E3 & L3); [right; lia |].
    erewrite bind_ok by exact E3. cbn [self].
    exists (Sequential [m1; m2; nn_LeakyReLU] :: ms), g3. split; [done |]. intros _.
    rewrite (drop_S _ _ _ Ea), (drop_S _ _ _ Eb), dec_prims_cons, tagged_app, layers_seq_cons.
    rewrite L3 by lia. rewrite (drop_S _ _ _ Eb). cbn [layers]. rewrite L1, L2. done.
Qed.

End BuildRuns.

Ltac obj_cbn :=
  cbn [self gen latent_dim hidden_dims in_channels built encoder encoder_result_shape
       fc_mu fc_var decoder_input decoder final_layer output_layer
       set_encoder set_encoder_result_shape set_fc_mu set_fc_var set_decoder_input
       set_decoder set_final_layer set_output_layer set_built].

(** One step of a method that goes through, and the creation of a layer. *)
Ltac mstep :=
  first
    [ erewrite bind_ok by reflexivity
    | erewrite bind_ok by (apply getattr_ok; reflexivity)
    | erewrite bind_ok by (apply lift_ok; eassumption) ];
  obj_cbn.

Ltac side := repeat match goal with x := _ |- _ => subst x end; lia.

Ltac mlayer L :=
  lazymatch goal with
  | |- context [mbind _ (?c) ?w] =>
      lazymatch c with
      | nn_Linear ?a ?b =>
          let m := fresh "m" in let g := fresh "g" in let E := fresh "E" in
          destruct (new_layer_ok (PLinear a b) [a; b] w) as (m & g & E & L);
          [ repeat (apply Forall_cons; split); [side .. | constructor]
          | change (new_layer (PLinear a b) [a; b] w) with (nn_Linear a b w) in E;
            erewrite bind_ok by exact E; obj_cbn ]
      | nn_Conv2d ?a ?b ?k ?s ?p =>
          let m := fresh "m" in let g := fresh "g" in let E := fresh "E" in
          destruct (new_layer_ok (PConv2d a b k s p) [a; b; k] w) as (m & g & E & L);
          [ repeat (apply Forall_cons; split); [side .. | constructor]
          | change (new_layer (PConv2d a b k s p) [a; b; k] w) with (nn_Conv2d a b k s p w) in E;
            erewrite bind_ok by exact E; obj_cbn ]
      | nn_ConvTranspose2d ?a ?b ?k ?s ?p ?o =>
          let m := fresh "m" in let g := fresh "g" in let E := fresh "E" in
          destruct (new_layer_ok (PConvTranspose2d a b k s p o) [a; b; k] w) as (m & g & E & L);
          [ repeat (apply Forall_cons; split); [side .. | constructor]
          | change (new_layer (PConvTranspose2d a b k s p o) [a; b; k] w)
              with (nn_ConvTranspose2d a b k s p o w) in E;
            erewrite bind_ok by exact E; obj_cbn ]
      | nn_BatchNorm2d ?a =>
          let m := fresh "m" in let g := fresh "g" in let E := fresh "E" in
          destruct (new_layer_ok (PBatchNorm2d a) [a] w) as (m & g & E & L);
          [ repeat (apply Forall_cons; split); [side .. | constructor]
          | change (new_layer (PBatchNorm2d a) [a] w) with (nn_BatchNorm2d a w) in E;
            erewrite bind_ok by exact E; obj_cbn ]
      end
  end.

Section BuildReturns.
Context `{BK : Backend}.

Lemma Forall_pos_nonneg (l : list Z) : Forall (λ d, 0 < d) l → Forall (λ d, 0 ≤ d) l.
Proof. intros Hl. eapply Forall_impl; [exact Hl |]. cbn. intros. lia. Qed.

(** [build] run through, step by step. *)
Lemma build_returns batch device w N H W :
  let hs := hidden_dims (self w) in
  hs ≠ [] → Forall (λ d, 0 < d) hs →
  0 < in_channels (self w) → 0 ≤ latent_dim (self w) →
  shape batch = [N; in_channels (self w); H; W] →
  1 ≤ H → 1 ≤ W →
  ¬ single_value true (length hs) N H W →
  ∃ w', build batch device w = (Ok (), w').
Proof.
  intros hs Hne Hpos Hic Hld Hshape HH HW Hsv.
  pose proof (Forall_pos_nonneg _ Hpos) as Hnn.
  set (n := length hs) in *.
  destruct (reverse_head_last hs Hne) as (r & Hrev & Hlen).
  set (cl := default 0 (last hs)) in *.
  assert (0 < cl) as Hcl.
  { unfold cl. destruct (last hs) as [x |] eqn:El; [| by apply last_None in El].
    cbn. rewrite Forall_forall in Hpos. apply Hpos. by apply last_Some_elem_of. }
  set (hn := shrink n H) in *. set (wn := shrink n W) in *.
  assert (1 ≤ hn ∧ 1 ≤ wn) as [Hhn Hwn] by (split; by apply shrink_pos).
  destruct (head hs) as [c0 |] eqn:Ehead; [| by destruct hs].
  assert (0 < c0) as Hc0.
  { rewrite Forall_forall in Hpos. apply Hpos. destruct hs; [done |].
    injection Ehead as ->. by left. }
  assert (last (cl :: r) = Some c0) as Hlast by (by rewrite <- Hrev, last_reverse).
  unfold build. mstep. fold hs. mstep.
  destruct (encoder_blocks_ok hs (in_channels (self w)) w Hnn) as (ms & g0 & Eenc & Lenc); [lia |].
  erewrite bind_ok by exact Eenc. obj_cbn. mstep. mstep.
  (* the encoder on the dummy batch *)
  destruct (call_ok (Sequential ms) batch [N; cl; hn; wn]) as (der & Hder & Hsder).
  { rewrite Lenc, Hshape. by apply enc_run. }
  mstep. rewrite Hsder. cbn [drop]. mstep. mstep. mstep.
  assert (0 < prod_Z [cl; hn; wn]) as HF.
  { change (prod_Z [cl; hn; wn]) with (cl * (hn * (wn * 1))). clearbody cl hn wn. nia. }
  set (F := prod_Z [cl; hn; wn]) in *.
  mlayer Lmu.
  mstep. mstep. mstep.
  mlayer Lvar.
  mstep. mstep.
  pose proof (flatten1_4d _ _ _ _ _ Hsder) as Hflat. fold F in Hflat.
  mstep.
  destruct (call_ok m (mkTensor [N; F] (data der) (requires_grad der)) [N; latent_dim (self w)])
    as (dmu & Hdmu & Hsdmu).
  { rewrite Lmu. apply linear_run. }
  mstep. mstep. mstep.
  mlayer Ldi.
  mstep.
  destruct (decoder_blocks_ok (reverse hs) (length (reverse hs) - 1) 0
              (mkWorld (set_decoder_input m1 (set_fc_var m0 (set_fc_mu m
                 (set_encoder_result_shape [cl; hn; wn]
                    (set_encoder (Sequential ms) (self w)))))) g2))
    as (dms & g3 & Edec & Ldec).
  { by apply Forall_reverse. }
  { right. rewrite Hrev. cbn. lia. }
  erewrite bind_ok by exact Edec. obj_cbn. mstep.
  specialize (Ldec ltac:(rewrite Hrev; cbn; lia)). rewrite drop_0, Hrev in Ldec.
  unfold py_last. change (hidden_dims (self w)) with hs. rewrite Hrev, Hlast. mstep.
  mlayer LconvT.
  mlayer Lbn.
  mstep. mstep.
  destruct (call_ok m1 dmu [N; F]) as (x1 & Hx1 & Hsx1).
  { rewrite Ldi, Hsdmu. apply linear_run. }
  mstep. mstep.
  assert (view_infer x1 [cl; hn; wn]
          = Ok (mkTensor [N; cl; hn; wn] (data x1) (requires_grad x1))) as Hview.
  { unfold view_infer, numel. rewrite Hsx1. fold F.
    change (prod_Z [N; F]) with (N * (F * 1)). rewrite Z.mul_1_r.
    rewrite decide_True.
    - by rewrite Z.div_mul by (clearbody F; lia).
    - split; [done |]. apply Z.mod_mul. clearbody F. lia. }
  mstep. mstep.
  destruct (call_ok (Sequential dms) (mkTensor [N; cl; hn; wn] (data x1) (requires_grad x1))
              [N; c0; 2 ^ Z.of_nat (length r) * hn; 2 ^ Z.of_nat (length r) * wn])
    as (x3 & Hx3 & Hsx3).
  { rewrite Ldec. cbn [shape]. rewrite dec_run by done. by rewrite Hlast. }
  mstep. mstep.
  destruct (call_ok (Sequential [m2; m3; nn_LeakyReLU]) x3
              [N; c0; stack_out n H; stack_out n W]) as (x4 & Hx4 & Hsx4).
  { rewrite !layers_seq_cons, LconvT, Lbn. change (layers (Sequential [])) with (@nil (Prim * bool)).
    change ([(PConvTranspose2d c0 c0 3 2 1 1, true)] ++ [(PBatchNorm2d c0, true)]
            ++ layers nn_LeakyReLU ++ []) with (tagged true (final_prims c0)).
    rewrite Hsx3, final_run by lia. unfold stack_out. fold hn wn.
    replace (Z.of_nat n) with (Z.succ (Z.of_nat (length r))) by (unfold n; lia).
    rewrite Z.pow_succ_r by lia. repeat (f_equal; try ring). }
  mstep. rewrite Hshape, Hsx4. cbn [last]. mstep. mstep. mstep. mstep.
  rewrite output_kernel_eq.
  destruct (stack_out_bounds n W HW) as (Hb1 & _ & _).
  mlayer Lout.
  mstep. eexists. reflexivity.
Qed.

End BuildReturns.

(** ** The spatial sizes in closed form

    An encoder block halves a size, rounding up; the decoder stack and the
    final layer double it as often.  So [shrink n x] is [x / 2^n] rounded up,
    and [stack_out n x] is [x] rounded up to a multiple of [2^n]. *)

Lemma shrink_ceil n x : 1 ≤ x → shrink n x = (x + 2 ^ Z.of_nat n - 1) / 2 ^ Z.of_nat n.
Proof.
  revert x. induction n as [| n IH]; intros x Hx.
  - cbn [shrink]. change (2 ^ Z.of_nat 0) with 1. rewrite Z.div_1_r. lia.
  - cbn [shrink]. rewrite IH by (unfold conv_out; Z.div_mod_to_equations; lia).
    rewrite Nat2Z.inj_succ, Z.pow_succ_r by lia.
    assert (0 < 2 ^ Z.of_nat n) as HP by (apply Z.pow_pos_nonneg; lia).
    set (P := 2 ^ Z.of_nat n) in *. clearbody P.
    rewrite <- Z.div_div by lia.
    f_equal. unfold conv_out. Z.div_mod_to_equations. lia.
Qed.

Lemma stack_out_closed n x : 1 ≤ x → stack_out n x = x + (- x) mod 2 ^ Z.of_nat n.
Proof.
  intros Hx. unfold stack_out. rewrite shrink_ceil by done.
  assert (0 < 2 ^ Z.of_nat n) as HP by (apply Z.pow_pos_nonneg; lia).
  set (P := 2 ^ Z.of_nat n) in *. clearbody P.
  symmetry. apply Z.add_move_l. symmetry.
  apply (Z.mod_unique_pos _ _ (- ((x + P - 1) / P))).
  - Z.div_mod_to_equations. nia.
  - lia.
Qed.

Lemma same_overshoot n H W :
  1 ≤ H → 1 ≤ W →
  stack_out n H - stack_out n W + W = H ↔ (H - W) mod 2 ^ Z.of_nat n = 0.
Proof.
  intros HH HW. rewrite !stack_out_closed by done.
  assert (0 < 2 ^ Z.of_nat n) as HP by (apply Z.pow_pos_nonneg; lia).
  set (P := 2 ^ Z.of_nat n) in *. clearbody P.
  split.
  - intros E. assert ((- H) mod P = (- W) mod P) as E' by lia.
    replace (H - W) with (- W - - H) by lia.
    rewrite Zminus_mod, E', Z.sub_diag. by apply Z.mod_0_l; lia.
  - intros E.
    assert ((- H) mod P = (- W) mod P); [| lia].
    replace (- H) with (- W + (- (H - W))) by lia.
    rewrite Zplus_mod. rewrite (Z.mod_opp_l_z (H - W)) by (done || lia).
    rewrite Z.add_0_r, Z.mod_mod; lia.
Qed.

Lemma shrink_one_iff n x : 1 ≤ x → shrink n x = 1 ↔ x ≤ 2 ^ Z.of_nat n.
Proof.
  intros Hx. rewrite shrink_ceil by done.
  assert (0 < 2 ^ Z.of_nat n) as HP by (apply Z.pow_pos_nonneg; lia).
  set (P := 2 ^ Z.of_nat n) in *. clearbody P.
  split; intros E; Z.div_mod_to_equations; nia.
Qed.

Section BuildProps.
Context `{BK : Backend}.

(** What the encoder rejects on the dummy batch, [build] raises. *)
Lemma build_encoder_raise batch device w e :
  Forall (λ d, 0 ≤ d) (hidden_dims (self w)) → 0 ≤ in_channels (self w) →
  run_layers (tagged true (enc_prims (hidden_dims (self w)) (in_channels (self w))))
    (shape batch) = Raise e →
  (build batch device w).1 = Raise e.
Proof.
  intros Hnn Hic Hrun. unfold build. mstep. mstep.
  destruct (encoder_blocks_ok _ _ w Hnn Hic) as (ms & g0 & Eenc & Lenc).
  erewrite bind_ok by exact Eenc. obj_cbn. mstep. mstep.
  erewrite bind_raise; [done |]. apply lift_raise, call_raise. by rewrite Lenc.
Qed.

Lemma failed_build_unbuilt batch device w e :
  (build batch device w).1 = Raise e →
  built (self (build batch device w).2) = built (self w).
Proof.
  intros E. pose proof (sets_built_build batch device w) as Hs. by rewrite E in Hs.
Qed.

(** X1.  [build] returns, and leaves a built model whose layers are sized
    for the batch, whenever the constructor was given a non-empty list of
    positive hidden dimensions, a positive [in_channels] and a [latent_dim]
    that is not negative, and the batch is a non-empty batch of images with
    [in_channels] channels -- unless it is a single image of at most
    [2^n] x [2^n] pixels, [n] the number of hidden dimensions. *)
Theorem build_succeeds batch device w N H W :
  let hs := hidden_dims (self w) in
  let n := length hs in
  hs ≠ [] → Forall (λ d, 0 < d) hs →
  0 < in_channels (self w) → 0 ≤ latent_dim (self w) →
  shape batch = [N; in_channels (self w); H; W] →
  0 < N → 1 ≤ H → 1 ≤ W →
  ¬ (N = 1 ∧ H ≤ 2 ^ Z.of_nat n ∧ W ≤ 2 ^ Z.of_nat n) →
  ∃ w', build batch device w = (Ok (), w') ∧
        built (self w') = true ∧
        built_for true (self w') H W.
Proof.
  intros hs n Hne Hpos Hic Hld Hshape HN HH HW Hsv.
  destruct (build_returns batch device w N H W) as (w' & Hb); try done.
  { intros (_ & -> & E1 & E2). apply Hsv.
    by rewrite <- !shrink_one_iff. }
  exists w'. split; [done |].
  destruct (build_inv _ _ _ _ _ _ _ _ Hshape Hb) as (Hbf & _).
  split; [apply Hbf | done].
Qed.

(** X2.  On a batch of one image of at most [2^n] x [2^n] pixels, [n] the
    number of hidden dimensions, [build] raises [ValueError]: the encoder
    reduces the image to one value per channel, which a batch-norm layer in
    training mode rejects when [build] runs the encoder on the batch.  The
    model stays as built or unbuilt as it was. *)
Theorem build_single_sample batch device w H W :
  let hs := hidden_dims (self w) in
  let n := length hs in
  hs ≠ [] → Forall (λ d, 0 < d) hs → 0 < in_channels (self w) →
  shape batch = [1; in_channels (self w); H; W] →
  1 ≤ H → H ≤ 2 ^ Z.of_nat n → 1 ≤ W → W ≤ 2 ^ Z.of_nat n →
  (build batch device w).1 = Raise ValueError ∧
  built (self (build batch device w).2) = built (self w).
Proof.
  intros hs n Hne Hpos Hic Hshape HH1 HH2 HW1 HW2.
  assert ((build batch device w).1 = Raise ValueError) as E.
  { apply build_encoder_raise; [by apply Forall_pos_nonneg | lia |].
    rewrite Hshape. apply enc_run; [done.. |].
    repeat split; by apply shrink_one_iff. }
  split; [done | by eapply failed_build_unbuilt].
Qed.

(** X3.  On a batch whose channel count is not [in_channels], [build] raises
    [RuntimeError], from the first convolution of the encoder, and leaves
    [built] as it was. *)
Theorem build_channel_mismatch batch device w N C H W :
  let hs := hidden_dims (self w) in
  hs ≠ [] → Forall (λ d, 0 < d) hs → 0 < in_channels (self w) →
  shape batch = [N; C; H; W] →
  C ≠ in_channels (self w) →
  (build batch device w).1 = Raise RuntimeError ∧
  built (self (build batch device w).2) = built (self w).
Proof.
  intros hs Hne Hpos Hic Hshape HC.
  assert ((build batch device w).1 = Raise RuntimeError) as E.
  { apply build_encoder_raise; [by apply Forall_pos_nonneg | lia |].
    rewrite Hshape. fold hs. destruct hs as [| h rest]; [done |].
    cbn [enc_prims tagged fmap list_fmap app run_layers prim_shape].
    unfold conv2d_hw. rewrite decide_False by (intros (? & _); done). done. }
  split; [done | by eapply failed_build_unbuilt].
Qed.

(** X4.  With an empty list of hidden dimensions, [build] on a batch of images
    raises [IndexError]: the encoder and the decoder stack are empty, the
    linear layers are created, and [hidden_dims[::-1][-1]], the channel count
    of the final layer, does not exist.  [built] stays as it was. *)
Theorem build_empty_hidden_dims batch device w N C H W :
  hidden_dims (self w) = [] →
  0 ≤ latent_dim (self w) →
  shape batch = [N; C; H; W] →
  0 < N → 0 < C → 0 < H → 0 < W →
  (build batch device w).1 = Raise IndexError ∧
  built (self (build batch device w).2) = built (self w).
Proof.
  intros Hhs Hld Hshape HN HC HH HW.
  assert ((build batch device w).1 = Raise IndexError) as E;
    [| split; [done | by eapply failed_build_unbuilt]].
  assert (0 < prod_Z [C; H; W]) as HF.
  { change (prod_Z [C; H; W]) with (C * (H * (W * 1))). nia. }
  unfold build. mstep. rewrite Hhs. mstep.
  cbn [encoder_blocks]. mstep. mstep. mstep.
  assert (call (Sequential []) batch = Ok batch) as Hc by done.
  mstep. rewrite Hshape. cbn [drop]. mstep. mstep. mstep.
  mlayer Lmu. mstep. mstep. mstep. mlayer Lvar. mstep. mstep.
  pose proof (flatten1_4d _ _ _ _ _ Hshape) as Hflat. mstep.
  destruct (call_ok m (mkTensor [N; prod_Z [C; H; W]] (data batch) (requires_grad batch))
              [N; latent_dim (self w)]) as (dmu & Hdmu & Hsdmu).
  { rewrite Lmu. apply linear_run. }
  mstep. mstep. mstep. mlayer Ldi. mstep.
  cbn [reverse rev_append length Nat.sub seq decoder_blocks].
  mstep. mstep. done.
Qed.

End BuildProps.

Section ModelProps.
Context `{BK : Backend}.

Lemma pow2_pos n : 0 < 2 ^ Z.of_nat n.
Proof. apply Z.pow_pos_nonneg; lia. Qed.

(** X5.  A [build] that returns on a batch of shape [N, C, H, W] has recorded
    [[c, h, v]] as the encoder's result shape, where [c] is the last hidden
    dimension and [h], [v] are [H / 2^n], [W / 2^n] rounded up, and has given
    [fc_mu] and [fc_var] [c * h * v] input features and [latent_dim] output
    features, and [decoder_input] the reverse. *)
Theorem build_linear_sizes batch device w w' N C H W :
  shape batch = [N; C; H; W] →
  build batch device w = (Ok (), w') →
  let n := length (hidden_dims (self w)) in
  let P := 2 ^ Z.of_nat n in
  let h := (H + P - 1) / P in
  let v := (W + P - 1) / P in
  ∃ c fm fv di,
    last (hidden_dims (self w)) = Some c ∧
    encoder_result_shape (self w') = Some [c; h; v] ∧
    fc_mu (self w') = Some fm ∧ fc_var (self w') = Some fv ∧
    decoder_input (self w') = Some di ∧
    layers fm = [(PLinear (c * h * v) (latent_dim (self w)), true)] ∧
    layers fv = [(PLinear (c * h * v) (latent_dim (self w)), true)] ∧
    layers di = [(PLinear (latent_dim (self w)) (c * h * v), true)].
Proof.
  intros Hshape Hb n P h v.
  destruct (build_inv _ _ _ _ _ _ _ _ Hshape Hb) as (Hbf & _ & _ & Eld & Ehs & _).
  destruct Hbf as [_ Hne HH HW _ _ _ Es (fm & Efm & Lfm) (fv & Efv & Lfv) (di & Edi & Ldi) _ _ _].
  rewrite Es in Lfm, Lfv, Ldi. rewrite Eld, Ehs in *. cbn [default] in *.
  fold n in Es, Lfm, Lfv, Ldi. rewrite !shrink_ceil in * by done. fold P h v in Es, Lfm, Lfv, Ldi.
  destruct (last (hidden_dims (self w))) as [c |] eqn:El; [| by apply last_None in El].
  cbn [default from_option id] in *.
  assert (prod_Z [c; h; v] = c * h * v) as Ep.
  { change (prod_Z [c; h; v]) with (c * (h * (v * 1))). ring. }
  rewrite Ep in *. by exists c, fm, fv, di.
Qed.

(** X6.  A [build] that returns on a batch of shape [N, C, H, W] has created
    the output convolution with the first hidden dimension as input channels,
    [C] output channels, stride 1, padding 1 and kernel size
    [3 + ((-W) mod 2^n)]: between 3 and [2^n + 2], and 3 exactly when the
    width is a multiple of [2^n]. *)
Theorem build_output_kernel batch device w w' N C H W :
  shape batch = [N; C; H; W] →
  build batch device w = (Ok (), w') →
  let n := length (hidden_dims (self w)) in
  let k := 3 + (- W) mod 2 ^ Z.of_nat n in
  ∃ c ol,
    head (hidden_dims (self w)) = Some c ∧
    output_layer (self w') = Some ol ∧
    layers ol = [(PConv2d c C k 1 1, true)] ∧
    3 ≤ k ≤ 2 ^ Z.of_nat n + 2 ∧
    (k = 3 ↔ W mod 2 ^ Z.of_nat n = 0).
Proof.
  intros Hshape Hb n k.
  destruct (build_inv _ _ _ _ _ _ _ _ Hshape Hb) as (Hbf & -> & _ & _ & Ehs & Eic).
  destruct Hbf as [_ Hne _ HW _ _ _ _ _ _ _ _ _ (ol & Eol & Lol)].
  rewrite Ehs, Eic in *. fold n in Lol. rewrite stack_out_closed in Lol by done.
  replace (W + (- W) mod 2 ^ Z.of_nat n - W + 3) with k in Lol by (unfold k; lia).
  destruct (head (hidden_dims (self w))) as [c |] eqn:Eh; [| by destruct (hidden_dims (self w))].
  exists c, ol. repeat (split; [done |]).
  pose proof (pow2_pos n) as HP. unfold k. set (P := 2 ^ Z.of_nat n) in *. clearbody P.
  split; [Z.div_mod_to_equations; lia |].
  split; intros E.
  - assert ((- W) mod P = 0) as E' by lia.
    apply Z.mod_opp_l_z in E'; [| lia]. by rewrite Z.opp_involutive in E'.
  - rewrite Z.mod_opp_l_z by (done || lia). lia.
Qed.

(** ** [decode] *)

Lemma built_by_built_for w0 batch device mode w N C H W :
  shape batch = [N; C; H; W] → built_by w0 batch device mode w →
  built_for mode (self w) H W ∧ C = in_channels (self w).
Proof. intros Hs Hb. by destruct (built_by_inv _ _ _ _ _ _ _ _ _ Hs Hb) as (? & ? & _). Qed.

Lemma decode_closed mode w H W z B :
  built_for mode (self w) H W →
  shape z = [B; latent_dim (self w)] →
  let P := 2 ^ Z.of_nat (length (hidden_dims (self w))) in
  ∃ t, decode z w = (Ok t, w) ∧
       shape t = [B; in_channels (self w); H + (- H) mod P - (- W) mod P; W] ∧
       (shape t = [B; in_channels (self w); H; W] ↔ (H - W) mod P = 0).
Proof.
  intros Hbf Hz P.
  destruct (decode_spec _ _ _ _ _ _ Hbf Hz) as (t & Ht & Hst).
  pose proof (bf_H _ _ _ _ Hbf) as HH. pose proof (bf_W _ _ _ _ Hbf) as HW.
  exists t. split; [done |].
  pose proof (same_overshoot (length (hidden_dims (self w))) H W HH HW) as Hiff.
  rewrite !stack_out_closed in * by done. fold P in Hst, Hiff.
  split.
  - rewrite Hst. repeat (f_equal; try lia).
  - rewrite Hst, <- Hiff. split; [by intros [= ->] | by intros ->].
Qed.

(** X7.  On a model built on a batch of shape [N, C, H, W], [decode] of a
    latent tensor of shape [B, latent_dim], [B] positive, returns a tensor of
    shape [B, C, H', W] with [H' = H + ((-H) mod 2^n) - ((-W) mod 2^n)], and
    leaves the model and the generator alone.  The decoded images have the
    size of the build batch exactly when [H] and [W] are congruent modulo
    [2^n]. *)
Theorem decode_restores_size_iff w0 batch device mode w N C H W z B :
  shape batch = [N; C; H; W] →
  built_by w0 batch device mode w →
  shape z = [B; latent_dim (self w)] →
  0 < B →
  let P := 2 ^ Z.of_nat (length (hidden_dims (self w))) in
  ∃ t, decode z w = (Ok t, w) ∧
       shape t = [B; C; H + (- H) mod P - (- W) mod P; W] ∧
       (shape t = [B; C; H; W] ↔ (H - W) mod P = 0).
Proof.
  intros Hs Hb Hz HB P.
  destruct (built_by_built_for _ _ _ _ _ _ _ _ _ Hs Hb) as (Hbf & ->).
  by apply (decode_closed mode).
Qed.

(** X8.  On a built model, [decode] of a tensor whose last dimension is not
    [latent_dim] (or that has no dimension) raises [RuntimeError], from the
    linear layer [decoder_input]. *)
Theorem decode_latent_mismatch w0 batch device mode w N C H W z :
  shape batch = [N; C; H; W] →
  built_by w0 batch device mode w →
  last (shape z) ≠ Some (latent_dim (self w)) →
  decode z w = (Raise RuntimeError, w).
Proof.
  intros Hs Hb Hz.
  destruct (built_by_built_for _ _ _ _ _ _ _ _ _ Hs Hb) as (Hbf & _).
  destruct (bf_decoder_input _ _ _ _ Hbf) as (di & Edi & Ldi).
  unfold decode.
  erewrite bind_ok by (apply require_built_ok, Hbf).
  erewrite bind_ok by (by apply getattr_ok).
  erewrite bind_raise; [done |]. apply lift_raise, call_raise.
  rewrite Ldi. cbn [run_layers prim_shape]. rewrite <- head_reverse in Hz.
  destruct (reverse (shape z)) as [| d pre]; [done |].
  rewrite decide_False; [done |]. intros ->. by apply Hz.
Qed.

(** ** [encode] *)

(** X9.  [encode] on images of another size than the build batch's.  The
    encoder accepts them, and the linear layers accept its flattened output
    exactly when it has as many values as at build time: when the products
    of height and width, each divided by [2^n] and rounded up, agree.  Then
    [encode] returns [mu] and [log_var] of shape [N, latent_dim]; otherwise
    it raises [RuntimeError]. *)
Theorem encode_other_size w0 batch device mode w N0 C H W input N H' W' :
  shape batch = [N0; C; H; W] →
  built_by w0 batch device mode w →
  shape input = [N; C; H'; W'] →
  0 < N → 1 ≤ H' → 1 ≤ W' →
  let P := 2 ^ Z.of_nat (length (hidden_dims (self w))) in
  let up x := (x + P - 1) / P in
  ¬ (mode = true ∧ N = 1 ∧ H' ≤ P ∧ W' ≤ P) →
  (up H' * up W' = up H * up W →
   ∃ mu log_var, encode input w = (Ok [mu; log_var], w) ∧
                 shape mu = [N; latent_dim (self w)] ∧
                 shape log_var = [N; latent_dim (self w)]) ∧
  (up H' * up W' ≠ up H * up W → encode input w = (Raise RuntimeError, w)).
Proof.
  intros Hs Hb Hin HN HH' HW' P up Hsv.
  destruct (built_by_built_for _ _ _ _ _ _ _ _ _ Hs Hb) as (Hbf & ->).
  destruct Hbf as [Hbt Hne HH HW Hld Hcl (enc & Eenc & Lenc) Es (fm & Efm & Lfm) (fv & Efv & Lfv)
                     _ _ _ _].
  set (hs := hidden_dims (self w)) in *. set (n := length hs) in *.
  rewrite Es in Lfm, Lfv. cbn [default] in Lfm, Lfv.
  set (cl := default 0 (last hs)) in *.
  assert (up H = shrink n H ∧ up W = shrink n W ∧ up H' = shrink n H' ∧ up W' = shrink n W')
    as (EH & EW & EH' & EW') by (by rewrite !shrink_ceil).
  rewrite EH, EW, EH', EW'. clear EH EW EH' EW'.
  destruct (enc_run mode hs (in_channels (self w)) N H' W' Hne HH' HW') as [_ Hok].
  fold n cl in Hok.
  destruct (call_ok enc input [N; cl; shrink n H'; shrink n W']) as (r & Hr & Hsr).
  { rewrite Lenc, Hin. apply Hok. intros (? & ? & E1 & E2). apply Hsv.
    unfold P. by rewrite <- !shrink_one_iff. }
  pose proof (flatten1_4d _ _ _ _ _ Hsr) as Hflat.
  set (flat := mkTensor _ (data r) (requires_grad r)) in Hflat.
  assert (prod_Z [cl; shrink n H'; shrink n W'] = prod_Z [cl; shrink n H; shrink n W]
          ↔ shrink n H' * shrink n W' = shrink n H * shrink n W) as Hiff.
  { change (prod_Z [cl; shrink n H'; shrink n W']) with (cl * (shrink n H' * (shrink n W' * 1))).
    change (prod_Z [cl; shrink n H; shrink n W]) with (cl * (shrink n H * (shrink n W * 1))).
    rewrite !Z.mul_1_r. split; [| by intros ->].
    intros E. apply (Z.mul_reg_l _ _ cl); [lia | done]. }
  split; intros E.
  - apply Hiff in E.
    destruct (call_ok fm flat [N; latent_dim (self w)]) as (mu & Hmu & Hsmu).
    { rewrite Lfm. cbn [flat shape]. rewrite E. apply linear_run. }
    destruct (call_ok fv flat [N; latent_dim (self w)]) as (lv & Hlv & Hslv).
    { rewrite Lfv. cbn [flat shape]. rewrite E. apply linear_run. }
    exists mu, lv. split; [| done]. unfold encode.
    erewrite bind_ok by (by apply require_built_ok).
    erewrite bind_ok by (by apply getattr_ok).
    erewrite bind_ok by (by apply lift_ok).
    erewrite bind_ok by (by apply lift_ok).
    erewrite bind_ok by (by apply getattr_ok).
    erewrite bind_ok by (by apply lift_ok).
    erewrite bind_ok by (by apply getattr_ok).
    erewrite bind_ok by (by apply lift_ok).
    done.
  - unfold encode.
    erewrite bind_ok by (by apply require_built_ok).
    erewrite bind_ok by (by apply getattr_ok).
    erewrite bind_ok by (by apply lift_ok).
    erewrite bind_ok by (by apply lift_ok).
    erewrite bind_ok by (by apply getattr_ok).
    erewrite bind_raise; [done |]. apply lift_raise, call_raise.
    rewrite Lfm. cbn [flat shape run_layers prim_shape reverse rev_append].
    rewrite decide_False; [done |]. by rewrite Hiff.
Qed.

(** X10.  On a built model, [encode] of a batch whose channel count is not
    that of the build batch raises [RuntimeError]. *)
Theorem encode_channel_mismatch w0 batch device mode w N0 C H W input N C' H' W' :
  shape batch = [N0; C; H; W] →
  built_by w0 batch device mode w →
  shape input = [N; C'; H'; W'] →
  C' ≠ C →
  encode input w = (Raise RuntimeError, w).
Proof.
  intros Hs Hb Hin HC.
  destruct (built_by_built_for _ _ _ _ _ _ _ _ _ Hs Hb) as (Hbf & ->).
  destruct Hbf as [Hbt Hne _ _ _ _ (enc & Eenc & Lenc) _ _ _ _ _ _ _].
  unfold encode.
  erewrite bind_ok by (by apply require_built_ok).
  erewrite bind_ok by (by apply getattr_ok).
  erewrite bind_raise; [done |]. apply lift_raise, call_raise.
  rewrite Lenc, Hin. destruct (hidden_dims (self w)) as [| h rest]; [done |].
  cbn [enc_prims tagged fmap list_fmap app run_layers prim_shape].
  unfold conv2d_hw. rewrite decide_False by (intros (? & _); done). done.
Qed.

End ModelProps.

Section Inference.
Context `{BK : Backend}.

Lemma not_single_value mode n N H W :
  1 ≤ H → 1 ≤ W →
  ¬ (mode = true ∧ N = 1 ∧ H ≤ 2 ^ Z.of_nat n ∧ W ≤ 2 ^ Z.of_nat n) →
  ¬ single_value mode n N H W.
Proof.
  intros HH HW Hn (? & ? & E1 & E2). apply Hn. by rewrite <- !shrink_one_iff.
Qed.

(** [forward], run through. *)
Lemma forward_run mode w H W input N :
  built_for mode (self w) H W →
  shape input = [N; in_channels (self w); H; W] →
  0 ≤ N →
  ¬ single_value mode (length (hidden_dims (self w))) N H W →
  let P := 2 ^ Z.of_nat (length (hidden_dims (self w))) in
  ∃ d mu log_var g,
    forward input w = (Ok [d; input; mu; log_var], mkWorld (self w) g) ∧
    g = (randn_values (Z.to_nat (N * latent_dim (self w))) (gen w)).2 ∧
    shape mu = [N; latent_dim (self w)] ∧
    shape log_var = [N; latent_dim (self w)] ∧
    shape d = [N; in_channels (self w); H + (- H) mod P - (- W) mod P; W] ∧
    (shape d = [N; in_channels (self w); H; W] ↔ (H - W) mod P = 0).
Proof.
  intros Hbf Hin HN Hsv P.
  destruct (encode_spec _ _ _ _ _ _ Hbf Hin) as [_ Hok].
  destruct (Hok Hsv) as (? & ? & ? & ? & ? & mu & lv & _ & _ & _ & _ & _ & _ & _ & He & Hsm & Hsl).
  pose proof (bf_latent _ _ _ _ Hbf) as Hld.
  assert (Forall (λ d, 0 ≤ d) (shape lv)) as Hnn.
  { rewrite Hsl. repeat constructor; lia. }
  destruct (reparameterize_run mu lv w) as (eps & g & Heps & _ & _ & Hz); [congruence | done |].
  destruct (randn_ok (shape lv) w Hnn) as (eps' & g' & Heps' & _ & _ & Hg & _).
  assert (g = g') as ->.
  { unfold randn_like in Heps. cbn [t_exp t_rmul t_map shape] in Heps.
    rewrite Heps' in Heps. by injection Heps. }
  set (z := mkTensor _ _ _) in Hz. set (w1 := mkWorld (self w) g') in *.
  assert (built_for mode (self w1) H W) as Hbf1 by done.
  destruct (decode_closed mode w1 H W z N Hbf1) as (d & Hd & Hsd & Hiff); [exact Hsm |].
  exists d, mu, lv, g'. split.
  { unfold forward.
    erewrite bind_ok by (apply require_built_ok, Hbf).
    erewrite bind_ok by exact He.
    erewrite bind_ok by reflexivity. cbn beta iota.
    erewrite bind_ok by exact Hz.
    erewrite bind_ok by exact Hd. done. }
  split.
  { rewrite Hg, Hsl. cbn [prod_Z foldr]. by rewrite Z.mul_1_r. }
  done.
Qed.


(** X12.  [generate x] returns the first element of [forward x], the
    reconstruction, in the world [forward] leaves.  Its shape is
    [N, C, H', W], and it is the shape of [x] exactly when [H] and [W] are
    congruent modulo [2^n]. *)
Theorem generate_shape w0 batch device mode w N0 C H W x N :
  shape batch = [N0; C; H; W] →
  built_by w0 batch device mode w →
  shape x = [N; C; H; W] →
  0 < N →
  let P := 2 ^ Z.of_nat (length (hidden_dims (self w))) in
  ¬ (mode = true ∧ N = 1 ∧ H ≤ P ∧ W ≤ P) →
  ∃ outs d w1,
    forward x w = (Ok outs, w1) ∧ outs !! 0%nat = Some d ∧
    generate x w = (Ok d, w1) ∧
    shape d = [N; C; H + (- H) mod P - (- W) mod P; W] ∧
    (shape d = shape x ↔ (H - W) mod P = 0).
Proof.
  intros Hs Hb Hin HN P Hsv.
  destruct (built_by_built_for _ _ _ _ _ _ _ _ _ Hs Hb) as (Hbf & ->).
  destruct (forward_run mode w H W x N Hbf Hin) as (d & mu & lv & g & Hf & _ & _ & _ & Hsd & Hiff);
    [lia | apply not_single_value; [apply Hbf.. | done] |].
  eexists _, d, _. split; [exact Hf |]. split; [done |]. split.
  { unfold generate. erewrite bind_ok by exact Hf. done. }
  split; [done |]. by rewrite Hin.
Qed.

(** ** [loss_function] *)

Lemma loss_function_run w recons input mu log_var rest kwargs kld_weight B D :
  built (self w) = true →
  kwargs !! "M_N" = Some kld_weight →
  shape recons = shape input →
  shape mu = [B; D] → shape log_var = [B; D] →
  ∃ loss rl kld,
    loss_function (recons :: input :: mu :: log_var :: rest) kwargs w
    = (Ok ({[ "loss" := loss; "Reconstruction_Loss" := rl; "KLD" := kld ]}
            : gmap string Tensor), w) ∧
    shape loss = [] ∧ shape rl = [] ∧ shape kld = [].
Proof.
  intros Hb Hkw Hsri Hsm Hsl.
  unfold loss_function.
  erewrite bind_ok by (by apply require_built_ok).
  do 4 erewrite bind_ok by reflexivity.
  erewrite bind_ok by (apply lift_ok; unfold py_getitem; by rewrite Hkw).
  erewrite bind_ok by (apply lift_ok; unfold mse_loss; by rewrite decide_True).
  unfold t_sub, t_add.
  erewrite bind_ok by (apply lift_ok, t_binop_same; cbn; congruence).
  erewrite bind_ok by (apply lift_ok, t_binop_same; cbn; congruence).
  cbn [t_radd t_pow t_exp t_map shape data requires_grad].
  erewrite bind_ok by (apply lift_ok; unfold sum_dim1; cbn [shape]; by rewrite Hsl).
  erewrite bind_ok by (apply lift_ok; reflexivity).
  erewrite bind_ok by (by apply lift_ok, t_binop_same).
  eexists _, _, _. split; [reflexivity |]. done.
Qed.

(** X13.  The outputs of [forward] are the arguments [loss_function] takes:
    when the decoded size is that of the input ([H] and [W] congruent modulo
    [2^n]) and the weight ['M_N'] is given, [loss_function] applied to the
    list [forward] returns gives a dict with exactly the keys ['loss'],
    ['Reconstruction_Loss'] and ['KLD'], each a 0-dimensional tensor. *)
Theorem forward_then_loss w0 batch device mode w N0 C H W input N kwargs kld_weight :
  shape batch = [N0; C; H; W] →
  built_by w0 batch device mode w →
  shape input = [N; C; H; W] →
  0 < N →
  let P := 2 ^ Z.of_nat (length (hidden_dims (self w))) in
  ¬ (mode = true ∧ N = 1 ∧ H ≤ P ∧ W ≤ P) →
  (H - W) mod P = 0 →
  kwargs !! "M_N" = Some kld_weight →
  ∃ outs w1 loss rl kld,
    forward input w = (Ok outs, w1) ∧
    loss_function outs kwargs w1
    = (Ok ({[ "loss" := loss; "Reconstruction_Loss" := rl; "KLD" := kld ]}
            : gmap string Tensor), w1) ∧
    shape loss = [] ∧ shape rl = [] ∧ shape kld = [].
Proof.
  intros Hs Hb Hin HN P Hsv Hmod Hkw.
  destruct (built_by_built_for _ _ _ _ _ _ _ _ _ Hs Hb) as (Hbf & ->).
  destruct (forward_run mode w H W input N Hbf Hin)
    as (d & mu & lv & g & Hf & _ & Hsm & Hsl & _ & Hiff);
    [lia | apply not_single_value; [apply Hbf.. | done] |].
  destruct (loss_function_run (mkWorld (self w) g) d input mu lv [] kwargs kld_weight
              N (latent_dim (self w))) as (loss & rl & kld & Hl & ?); try done.
  { apply Hbf. } { rewrite Hin. by apply Hiff. }
  by eexists _, _, loss, rl, kld.
Qed.

(** X14.  On a built model, [loss_function] with fewer than four positional
    arguments raises [IndexError], whatever the keyword arguments. *)
Theorem loss_function_too_few_args w args kwargs :
  built (self w) = true →
  (length args < 4)%nat →
  loss_function args kwargs w = (Raise IndexError, w).
Proof.
  intros Hb Hlen. unfold loss_function.
  erewrite bind_ok by (by apply require_built_ok).
  destruct args as [| a [| b [| c [| d rest]]]]; [| | | | simpl in Hlen; lia];
    repeat first [ by erewrite bind_raise by reflexivity
                 | erewrite bind_ok by reflexivity ].
Qed.

(** X15.  On a built model, [loss_function] with four positional arguments
    or more and no keyword ['M_N'] raises [KeyError] for that key, before
    any loss is computed. *)
Theorem loss_function_no_weight w args kwargs :
  built (self w) = true →
  (4 ≤ length args)%nat →
  kwargs !! "M_N" = None →
  loss_function args kwargs w = (Raise (KeyError "M_N"), w).
Proof.
  intros Hb Hlen Hkw. unfold loss_function.
  erewrite bind_ok by (by apply require_built_ok).
  destruct args as [| a [| b [| c [| d rest]]]]; try (simpl in Hlen; lia).
  do 4 erewrite bind_ok by reflexivity.
  erewrite bind_raise; [done |]. apply lift_raise. unfold py_getitem. by rewrite Hkw.
Qed.

(** X16.  On a built model, [loss_function] on a one-dimensional [mu] and
    [log_var] (a single latent vector without batch dimension) raises
    [IndexError]: the sum over dimension 1 has nothing to sum over. *)
Theorem loss_function_flat_latent w recons input mu log_var rest kwargs kld_weight D :
  built (self w) = true →
  kwargs !! "M_N" = Some kld_weight →
  shape recons = shape input →
  shape mu = [D] → shape log_var = [D] →
  loss_function (recons :: input :: mu :: log_var :: rest) kwargs w = (Raise IndexError, w).
Proof.
  intros Hb Hkw Hsri Hsm Hsl. unfold loss_function.
  erewrite bind_ok by (by apply require_built_ok).
  do 4 erewrite bind_ok by reflexivity.
  erewrite bind_ok by (apply lift_ok; unfold py_getitem; by rewrite Hkw).
  erewrite bind_ok by (apply lift_ok; unfold mse_loss; by rewrite decide_True).
  unfold t_sub, t_add.
  erewrite bind_ok by (apply lift_ok, t_binop_same; cbn; congruence).
  erewrite bind_ok by (apply lift_ok, t_binop_same; cbn; congruence).
  cbn [t_radd t_pow t_exp t_map shape data requires_grad].
  erewrite bind_raise; [done |]. apply lift_raise. unfold sum_dim1. cbn [shape]. by rewrite Hsl.
Qed.

(** ** [sample] *)

(** X17.  [sample] with a negative count raises [RuntimeError] when it draws
    the latent tensor, on a built model and on an unbuilt one alike: it
    reaches neither [decode] nor its guard, and the generator is untouched. *)
Theorem sample_negative_count w num_samples current_device :
  num_samples < 0 →
  sample num_samples current_device w = (Raise RuntimeError, w).
Proof.
  intros Hn. unfold sample. erewrite bind_ok by reflexivity.
  erewrite bind_raise; [done |]. unfold randn. rewrite decide_False; [done |].
  intros Hf. apply Forall_cons in Hf as [? _]. lia.
Qed.


(** ** Training and evaluation mode *)

(** X19.  A model in training mode rejects a single image of the build
    batch's size when that size is at most [2^n] x [2^n]: [encode] raises
    [ValueError].  After [eval()] the same call returns [mu] and [log_var]
    of shape [1, latent_dim]. *)
Theorem eval_accepts_single_sample w0 batch device w N0 C H W input :
  shape batch = [N0; C; H; W] →
  built_by w0 batch device true w →
  shape input = [1; C; H; W] →
  let P := 2 ^ Z.of_nat (length (hidden_dims (self w))) in
  H ≤ P → W ≤ P →
  encode input w = (Raise ValueError, w) ∧
  ∃ mu log_var,
    encode input (train false w).2 = (Ok [mu; log_var], (train false w).2) ∧
    shape mu = [1; latent_dim (self w)] ∧ shape log_var = [1; latent_dim (self w)].
Proof.
  intros Hs Hb Hin P HH HW.
  destruct (built_by_built_for _ _ _ _ _ _ _ _ _ Hs Hb) as (Hbf & ->).
  pose proof (bf_H _ _ _ _ Hbf) as HH1. pose proof (bf_W _ _ _ _ Hbf) as HW1.
  split.
  - apply (encode_spec true w H W input 1 Hbf Hin).
    repeat split; by apply shrink_one_iff.
  - pose proof (train_built_for true false w H W Hbf) as Hbf'.
    destruct (encode_spec false (train false w).2 H W input 1 Hbf' Hin) as [_ Hok].
    destruct Hok as (? & ? & ? & ? & ? & mu & lv & _ & _ & _ & _ & _ & _ & _ & He & Hsm & Hsl).
    { by intros (? & _). }
    by exists mu, lv.
Qed.

End Inference.

Section Params.
Context `{BK : Backend}.

(** ** The constructor's arguments *)

Lemma unchanged_bind {A B X} (f : VanillaVAE → X) (m : M A) (k : A → M B) :
  (∀ w, f (self (m w).2) = f (self w)) →
  (∀ a w, f (self (k a w).2) = f (self w)) →
  ∀ w, f (self ((m ≫= k) w).2) = f (self w).
Proof.
  intros Hm Hk w. rewrite bind_run. specialize (Hm w).
  destruct (m w) as [[a | e] w1]; simpl in *; [by rewrite Hk | done].
Qed.

Lemma unchanged_keeps_self {A X} (f : VanillaVAE → X) (m : M A) :
  keeps_self m → ∀ w, f (self (m w).2) = f (self w).
Proof. intros Hm w. by rewrite Hm. Qed.

Lemma keeps_self_encoder_blocks hs c : keeps_self (encoder_blocks hs c).
Proof.
  revert c. induction hs as [| h rest IH]; intros c; simpl; [frame |].
  unfold nn_Conv2d, nn_BatchNorm2d. frame.
Qed.

Lemma keeps_self_decoder_blocks r range : keeps_self (decoder_blocks r range).
Proof.
  induction range as [| i range IH]; simpl; [frame |].
  unfold nn_ConvTranspose2d, nn_BatchNorm2d. frame.
Qed.

Lemma build_unchanged {X} (f : VanillaVAE → X) batch device :
  (∀ m v, f (set_encoder m v) = f v) →
  (∀ s v, f (set_encoder_result_shape s v) = f v) →
  (∀ m v, f (set_fc_mu m v) = f v) →
  (∀ m v, f (set_fc_var m v) = f v) →
  (∀ m v, f (set_decoder_input m v) = f v) →
  (∀ m v, f (set_decoder m v) = f v) →
  (∀ m v, f (set_final_layer m v) = f v) →
  (∀ m v, f (set_output_layer m v) = f v) →
  (∀ b v, f (set_built b v) = f v) →
  ∀ w, f (self (build batch device w).2) = f (self w).
Proof.
  intros H1 H2 H3 H4 H5 H6 H7 H8 H9. unfold build.
  unfold nn_Linear, nn_ConvTranspose2d, nn_BatchNorm2d, nn_Conv2d.
  repeat (apply unchanged_bind;
          [ first [ intros ?; cbn;
                    first [ done | apply H1 | apply H2 | apply H3 | apply H4 | apply H5
                          | apply H6 | apply H7 | apply H8 ]
                  | apply unchanged_keeps_self;
                    first [ apply keeps_self_encoder_blocks | apply keeps_self_decoder_blocks
                          | frame ] ]
          | intro ]).
  intros w. cbn. apply H9.
Qed.

(** X20.  [build] never changes [latent_dim], [hidden_dims] or [in_channels],
    whether it returns or raises. *)
Theorem build_keeps_arguments batch device w :
  let v := self (build batch device w).2 in
  latent_dim v = latent_dim (self w) ∧
  hidden_dims v = hidden_dims (self w) ∧
  in_channels v = in_channels (self w).
Proof.
  repeat split; by apply build_unchanged.
Qed.

End Params.

(** * The claims on concrete inputs *)

Section Concrete.
Import Reference.

(** C1.  [decode] is to return images of the spatial size of the build batch,
    and [build] sizes the output convolution to that end, but from the width
    alone: a model with [hidden_dims = [4, 8]] built on a batch of 3 x 4
    images decodes to 4 x 4 images. *)
Lemma decode_height_mismatch :
  let w0 := fresh 1 2 (Some [4; 8]) in
  let batch := zeros [2; 1; 3; 4] in
  let w := (build batch Cpu w0).2 in
  let z := zeros [5; 2] in
  shape batch = [2; 1; 3; 4] ∧
  (build batch Cpu w0).1 = Ok () ∧
  shape z = [5; latent_dim (self w)] ∧
  shape_of (decode z w).1 = Ok [5; 1; 4; 4] ∧
  shape_of (decode z w).1 ≠ Ok [5; 1; 3; 4].
Proof.
  intros w0 batch w z. repeat split; try (vm_compute; reflexivity).
  vm_compute. discriminate.
Qed.

(** [decode_shape] on a model built on a batch of 4 x 4 images. *)
Lemma decode_shape_square :
  let w0 := fresh 1 2 (Some [4; 8]) in
  let batch := zeros [2; 1; 4; 4] in
  let w := (build batch Cpu w0).2 in
  let z := zeros [5; 2] in
  let n := length (hidden_dims (self w)) in
  ∃ ol c t,
    output_layer (self w) = Some ol ∧
    layers ol = [(PConv2d c 1 (output_kernel 4 (stack_out n 4)) 1 1, true)] ∧
    decode z w = (Ok t, w) ∧
    shape t = [5; 1; 4 + (stack_out n 4 - 4) - (stack_out n 4 - 4); 4] ∧
    (stack_out n 4 - 4 = stack_out n 4 - 4 → shape t = [5; 1; 4; 4]) ∧
    (4 = 4 → shape t = [5; 1; 4; 4]).
Proof.
  intros w0 batch w z.
  apply (decode_shape w0 batch Cpu true w 2 1 4 4 z 5).
  - vm_compute. reflexivity.
  - apply (built_by_build _ _ _ w w); [| reflexivity].
    apply (run_ok (build batch Cpu) w0 ()). vm_compute. reflexivity.
  - vm_compute. reflexivity.
Qed.

(** C9 on a freshly constructed model with the default [hidden_dims]. *)
Lemma inference_needs_build_witness :
  let w := fresh 3 16 None in
  let x := zeros [1; 3; 2; 2] in
  (∃ z w1,
     randn [4; latent_dim (self w)] w = (Ok z, w1) ∧
     decode (to z Cpu) w1 = (Raise (AttributeError build_first), w1) ∧
     sample 4 Cpu w = (Raise (AttributeError build_first), w1)) ∧
  forward x w = (Raise (AttributeError build_first), w) ∧
  generate x w = (Raise (AttributeError build_first), w) ∧
  encode x w = (Raise (AttributeError build_first), w) ∧
  decode x w = (Raise (AttributeError build_first), w) ∧
  loss_function [] ∅ w = (Raise (AttributeError build_first), w).
Proof.
  intros w x. apply (inference_needs_build w 4 Cpu x [] ∅).
  - vm_compute. reflexivity.
  - lia.
  - vm_compute. discriminate.
Defined.

(** C5 (amended) on a batch of three samples. *)
Lemma encode_shape_witness :
  let w0 := fresh 1 2 (Some [4]) in
  let batch := zeros [2; 1; 2; 2] in
  let w := (build batch Cpu w0).2 in
  let input := zeros [3; 1; 2; 2] in
  let n := length (hidden_dims (self w)) in
  (¬ single_value true n 3 2 2 →
   ∃ enc fm fv r flat mu log_var,
     encoder (self w) = Some enc ∧ fc_mu (self w) = Some fm ∧ fc_var (self w) = Some fv ∧
     call enc input = Ok r ∧ flatten1 r = Ok flat ∧
     call fm flat = Ok mu ∧ call fv flat = Ok log_var ∧
     encode input w = (Ok [mu; log_var], w) ∧
     shape mu = [3; latent_dim (self w)] ∧ shape log_var = [3; latent_dim (self w)]) ∧
  (single_value true n 3 2 2 → encode input w = (Raise ValueError, w)).
Proof.
  intros w0 batch w input.
  apply (encode_shape w0 batch Cpu true w 2 1 2 2 input 3).
  - vm_compute. reflexivity.
  - apply (built_by_build _ _ _ w w); [| reflexivity].
    apply (run_ok (build batch Cpu) w0 ()). vm_compute. reflexivity.
  - vm_compute. reflexivity.
Defined.

(** C5 as stated fails: a model with [hidden_dims = [4]] built on two 2 x 2
    images, still in training mode, rejects a batch of one such image. *)
Lemma encode_shape_counterexample :
  let w0 := fresh 1 2 (Some [4]) in
  let batch := zeros [2; 1; 2; 2] in
  let w := (build batch Cpu w0).2 in
  let input := zeros [1; 1; 2; 2] in
  shape batch = [2; 1; 2; 2] ∧
  (build batch Cpu w0).1 = Ok () ∧
  shape input = [1; in_channels (self w); 2; 2] ∧
  (encode input w).1 = Raise ValueError.
Proof.
  intros w0 batch w input. repeat split; vm_compute; reflexivity.
Qed.

(** [sample_shape] on a model built on a batch of 4 x 4 images. *)
Lemma sample_shape_square :
  let w0 := fresh 1 2 (Some [4; 8]) in
  let batch := zeros [2; 1; 4; 4] in
  let w := (build batch Cpu w0).2 in
  let n := length (hidden_dims (self w)) in
  ∃ z w1 t,
    randn [3; latent_dim (self w)] w = (Ok z, w1) ∧
    shape z = [3; latent_dim (self w)] ∧
    data z = (randn_values (Z.to_nat (3 * latent_dim (self w))) (gen w)).1 ∧
    decode (to z Cpu) w1 = (Ok t, w1) ∧
    sample 3 Cpu w = (Ok t, w1) ∧
    shape t = [3; 1; 4 + (stack_out n 4 - 4) - (stack_out n 4 - 4); 4] ∧
    (4 = 4 → shape t = [3; 1; 4; 4]).
Proof.
  intros w0 batch w.
  apply (sample_shape w0 batch Cpu true w 2 1 4 4 3 Cpu).
  - vm_compute. reflexivity.
  - apply (built_by_build _ _ _ w w); [| reflexivity].
    apply (run_ok (build batch Cpu) w0 ()). vm_compute. reflexivity.
  - lia.
Qed.

(** C7.  [sample] is to return images of the spatial size of the build
    batch; the model of [decode_height_mismatch], built on 3 x 4 images,
    samples 4 x 4 images. *)
Lemma sample_height_mismatch :
  let w0 := fresh 1 2 (Some [4; 8]) in
  let batch := zeros [2; 1; 3; 4] in
  let w := (build batch Cpu w0).2 in
  shape batch = [2; 1; 3; 4] ∧
  (build batch Cpu w0).1 = Ok () ∧
  shape_of (sample 5 Cpu w).1 = Ok [5; 1; 4; 4] ∧
  shape_of (sample 5 Cpu w).1 ≠ Ok [5; 1; 3; 4].
Proof.
  intros w0 batch w. repeat split; try (vm_compute; reflexivity).
  vm_compute. discriminate.
Qed.

(** The same on images of 218 x 178 with five hidden dimensions: the decoder
    stack gives 224 x 192, the output kernel is 17, and the decoded images are
    210 x 178. *)
Example decoded_height_218_178 :
  stack_out 5 218 = 224 ∧ stack_out 5 178 = 192 ∧
  output_kernel 178 (stack_out 5 178) = 17 ∧
  218 + (stack_out 5 218 - 218) - (stack_out 5 178 - 178) = 210.
Proof. vm_compute. done. Qed.

(** C4 on two 2 x 2 tensors. *)
Lemma reparameterize_formula_witness :
  let mu := mkTensor [2; 2] [1; 2; 3; 4]%Q false in
  let logvar := mkTensor [2; 2] [0; 0; 2; 2]%Q false in
  let w := fresh 1 2 None in
  ∃ eps t w',
    randn_like (t_exp (t_rmul sc_half logvar)) w = (Ok eps, w') ∧
    reparameterize mu logvar w = (Ok t, w') ∧
    shape eps = shape mu ∧ wf eps ∧ shape t = shape mu ∧ wf t ∧
    ∀ i e l m,
      data eps !! i = Some e → data logvar !! i = Some l → data mu !! i = Some m →
      data t !! i = Some (sc_add (sc_mul e (sc_exp (sc_mul sc_half l))) m).
Proof.
  intros mu logvar w. apply (reparameterize_formula mu logvar w).
  - reflexivity.
  - split; [repeat constructor; discriminate | reflexivity].
  - split; [repeat constructor; discriminate | reflexivity].
Defined.

(** C6 on a batch of three samples. *)
Lemma forward_composition_witness :
  let w0 := fresh 1 2 (Some [4]) in
  let batch := zeros [2; 1; 2; 2] in
  let w := (build batch Cpu w0).2 in
  let input := zeros [3; 1; 2; 2] in
  ∃ mu log_var z d w1,
    encode input w = (Ok [mu; log_var], w) ∧
    reparameterize mu log_var w = (Ok z, w1) ∧
    decode z w1 = (Ok d, w1) ∧
    forward input w = (Ok [d; input; mu; log_var], w1) ∧
    [d; input; mu; log_var] !! 1%nat = Some input.
Proof.
  intros w0 batch w input.
  apply (forward_composition w0 batch Cpu true w 2 1 2 2 input 3).
  - vm_compute. reflexivity.
  - apply (built_by_build _ _ _ w w); [| reflexivity].
    apply (run_ok (build batch Cpu) w0 ()). vm_compute. reflexivity.
  - vm_compute. reflexivity.
  - lia.
  - intros (_ & E & _). discriminate E.
Defined.

(** C2 on a batch of two samples with two latent dimensions. *)
Lemma loss_value_witness :
  let w := mkWorld (set_built true (__init__ 1 2 None)) 0%nat in
  let recons := zeros [2; 3] in
  let input := mkTensor [2; 3] [1; 1; 1; 1; 1; 1]%Q false in
  let mu := mkTensor [2; 2] [1; 2; 3; 4]%Q true in
  let log_var := mkTensor [2; 2] [0; 0; 2; 2]%Q true in
  let kwargs : gmap string Q := {[ "M_N" := (1 # 2)%Q ]} in
  ∃ d m x loss,
    loss_function [recons; input; mu; log_var] kwargs w = (Ok d, w) ∧
    mse_loss recons input = Ok m ∧ shape m = [] ∧ data m = [x] ∧
    d !! "loss" = Some loss ∧ shape loss = [] ∧
    data loss = [sc_add x (sc_mul (1 # 2)%Q (kld_spec 2 2 mu log_var))].
Proof.
  intros w recons input mu log_var kwargs.
  apply (loss_value w [recons; input; mu; log_var] kwargs recons input mu log_var (1 # 2)%Q 2 2);
    reflexivity.
Defined.

(** C10 on the same inputs. *)
Lemma loss_entries_witness :
  let w := mkWorld (set_built true (__init__ 1 2 None)) 0%nat in
  let recons := zeros [2; 3] in
  let input := mkTensor [2; 3] [1; 1; 1; 1; 1; 1]%Q false in
  let mu := mkTensor [2; 2] [1; 2; 3; 4]%Q true in
  let log_var := mkTensor [2; 2] [0; 0; 2; 2]%Q true in
  let args := [recons; input; mu; log_var] in
  let kwargs : gmap string Q := {[ "M_N" := (1 # 2)%Q ]} in
  let d := match (loss_function args kwargs w).1 with Ok d => d | Raise _ => ∅ end in
  ∃ recons input mu log_var kld_weight recons_loss kld_loss loss,
    args !! 0%nat = Some recons ∧ args !! 1%nat = Some input ∧
    args !! 2%nat = Some mu ∧ args !! 3%nat = Some log_var ∧
    kwargs !! "M_N" = Some kld_weight ∧
    mse_loss recons input = Ok recons_loss ∧
    t_add recons_loss (t_rmul kld_weight kld_loss) = Ok loss ∧
    d !! "loss" = Some loss ∧
    d !! "Reconstruction_Loss" = Some (detach recons_loss) ∧
    d !! "KLD" = Some (t_neg (detach kld_loss)) ∧
    (∃ x, t_add (detach recons_loss)
              (t_rmul kld_weight (t_neg (t_neg (detach kld_loss)))) = Ok x ∧
          shape x = shape loss ∧ data x = data loss) ∧
    requires_grad (detach recons_loss) = false ∧
    requires_grad (t_neg (detach kld_loss)) = false ∧
    requires_grad loss
    = requires_grad recons || requires_grad input || requires_grad mu || requires_grad log_var.
Proof.
  intros w recons input mu log_var args kwargs d.
  apply (loss_entries w args kwargs d w).
  vm_cast_no_check (eq_refl (loss_function args kwargs w)).
Defined.

End Concrete.

(** * The further properties on concrete inputs *)

Section ConcreteMore.
Import Reference.

(** The model that [build] leaves on [batch], starting from [w0]. *)
Ltac built_on w0 batch w :=
  apply (built_by_build _ _ _ w w); [| reflexivity];
  apply (run_ok (build batch Cpu) w0 ()); vm_compute; reflexivity.

(** X1 on a batch of two 3 x 4 images. *)
Lemma build_succeeds_witness :
  let w := fresh 1 2 (Some [4; 8]) in
  let batch := zeros [2; 1; 3; 4] in
  ∃ w', build batch Cpu w = (Ok (), w') ∧
        built (self w') = true ∧
        built_for true (self w') 3 4.
Proof.
  intros w batch. apply (build_succeeds batch Cpu w 2 3 4).
  - discriminate.
  - repeat constructor.
  - reflexivity.
  - discriminate.
  - vm_compute. reflexivity.
  - lia.
  - lia.
  - lia.
  - intros (E & _). discriminate E.
Defined.

(** X2 on a single 3 x 4 image and two hidden dimensions. *)
Lemma build_single_sample_witness :
  let w := fresh 1 2 (Some [4; 8]) in
  let batch := zeros [1; 1; 3; 4] in
  (build batch Cpu w).1 = Raise ValueError ∧
  built (self (build batch Cpu w).2) = built (self w).
Proof.
  intros w batch. apply (build_single_sample batch Cpu w 3 4).
  - discriminate.
  - repeat constructor.
  - reflexivity.
  - vm_compute. reflexivity.
  - lia.
  - vm_compute. discriminate.
  - lia.
  - vm_compute. discriminate.
Defined.

(** X3 on a batch of three channels for a model of one. *)
Lemma build_channel_mismatch_witness :
  let w := fresh 1 2 (Some [4]) in
  let batch := zeros [2; 3; 2; 2] in
  (build batch Cpu w).1 = Raise RuntimeError ∧
  built (self (build batch Cpu w).2) = built (self w).
Proof.
  intros w batch. apply (build_channel_mismatch batch Cpu w 2 3 2 2).
  - discriminate.
  - repeat constructor.
  - reflexivity.
  - vm_compute. reflexivity.
  - discriminate.
Defined.

(** X4 on a batch of two 2 x 2 images. *)
Lemma build_empty_hidden_dims_witness :
  let w := fresh 1 2 (Some []) in
  let batch := zeros [2; 1; 2; 2] in
  (build batch Cpu w).1 = Raise IndexError ∧
  built (self (build batch Cpu w).2) = built (self w).
Proof.
  intros w batch. apply (build_empty_hidden_dims batch Cpu w 2 1 2 2).
  - reflexivity.
  - discriminate.
  - vm_compute. reflexivity.
  - lia.
  - lia.
  - lia.
  - lia.
Defined.

(** X5 on a batch of two 3 x 4 images. *)
Lemma build_linear_sizes_witness :
  let w := fresh 1 2 (Some [4; 8]) in
  let batch := zeros [2; 1; 3; 4] in
  let w' := (build batch Cpu w).2 in
  let n := length (hidden_dims (self w)) in
  let P := 2 ^ Z.of_nat n in
  let h := (3 + P - 1) / P in
  let v := (4 + P - 1) / P in
  ∃ c fm fv di,
    last (hidden_dims (self w)) = Some c ∧
    encoder_result_shape (self w') = Some [c; h; v] ∧
    fc_mu (self w') = Some fm ∧ fc_var (self w') = Some fv ∧
    decoder_input (self w') = Some di ∧
    layers fm = [(PLinear (c * h * v) (latent_dim (self w)), true)] ∧
    layers fv = [(PLinear (c * h * v) (latent_dim (self w)), true)] ∧
    layers di = [(PLinear (latent_dim (self w)) (c * h * v), true)].
Proof.
  intros w batch w'. apply (build_linear_sizes batch Cpu w w' 2 1 3 4).
  - vm_compute. reflexivity.
  - apply (run_ok (build batch Cpu) w ()). vm_compute. reflexivity.
Defined.

(** X6 on a batch of two 3 x 3 images. *)
Lemma build_output_kernel_witness :
  let w := fresh 1 2 (Some [4; 8]) in
  let batch := zeros [2; 1; 3; 3] in
  let w' := (build batch Cpu w).2 in
  let n := length (hidden_dims (self w)) in
  let k := 3 + (- 3) mod 2 ^ Z.of_nat n in
  ∃ c ol,
    head (hidden_dims (self w)) = Some c ∧
    output_layer (self w') = Some ol ∧
    layers ol = [(PConv2d c 1 k 1 1, true)] ∧
    3 ≤ k ≤ 2 ^ Z.of_nat n + 2 ∧
    (k = 3 ↔ 3 mod 2 ^ Z.of_nat n = 0).
Proof.
  intros w batch w'. apply (build_output_kernel batch Cpu w w' 2 1 3 3).
  - vm_compute. reflexivity.
  - apply (run_ok (build batch Cpu) w ()). vm_compute. reflexivity.
Defined.

(** X7 on a model built on 3 x 4 images. *)
Lemma decode_restores_size_iff_witness :
  let w0 := fresh 1 2 (Some [4; 8]) in
  let batch := zeros [2; 1; 3; 4] in
  let w := (build batch Cpu w0).2 in
  let z := zeros [5; 2] in
  let P := 2 ^ Z.of_nat (length (hidden_dims (self w))) in
  ∃ t, decode z w = (Ok t, w) ∧
       shape t = [5; 1; 3 + (- 3) mod P - (- 4) mod P; 4] ∧
       (shape t = [5; 1; 3; 4] ↔ (3 - 4) mod P = 0).
Proof.
  intros w0 batch w z. apply (decode_restores_size_iff w0 batch Cpu true w 2 1 3 4 z 5).
  - vm_compute. reflexivity.
  - built_on w0 batch w.
  - vm_compute. reflexivity.
  - lia.
Defined.

(** X8 on a latent tensor of three columns for a latent dimension of two. *)
Lemma decode_latent_mismatch_witness :
  let w0 := fresh 1 2 (Some [4]) in
  let batch := zeros [2; 1; 2; 2] in
  let w := (build batch Cpu w0).2 in
  let z := zeros [5; 3] in
  decode z w = (Raise RuntimeError, w).
Proof.
  intros w0 batch w z. apply (decode_latent_mismatch w0 batch Cpu true w 2 1 2 2 z).
  - vm_compute. reflexivity.
  - built_on w0 batch w.
  - vm_compute. discriminate.
Defined.

(** X9 on 4 x 2 images for a model built on 2 x 2 images. *)
Lemma encode_other_size_witness :
  let w0 := fresh 1 2 (Some [4]) in
  let batch := zeros [2; 1; 2; 2] in
  let w := (build batch Cpu w0).2 in
  let input := zeros [3; 1; 4; 2] in
  let P := 2 ^ Z.of_nat (length (hidden_dims (self w))) in
  let up x := (x + P - 1) / P in
  (up 4 * up 2 = up 2 * up 2 →
   ∃ mu log_var, encode input w = (Ok [mu; log_var], w) ∧
                 shape mu = [3; latent_dim (self w)] ∧
                 shape log_var = [3; latent_dim (self w)]) ∧
  (up 4 * up 2 ≠ up 2 * up 2 → encode input w = (Raise RuntimeError, w)).
Proof.
  intros w0 batch w input. apply (encode_other_size w0 batch Cpu true w 2 1 2 2 input 3 4 2).
  - vm_compute. reflexivity.
  - built_on w0 batch w.
  - vm_compute. reflexivity.
  - lia.
  - lia.
  - lia.
  - intros (_ & E & _). discriminate E.
Defined.

(** X10 on a batch of two channels for a model of one. *)
Lemma encode_channel_mismatch_witness :
  let w0 := fresh 1 2 (Some [4]) in
  let batch := zeros [2; 1; 2; 2] in
  let w := (build batch Cpu w0).2 in
  let input := zeros [3; 2; 2; 2] in
  encode input w = (Raise RuntimeError, w).
Proof.
  intros w0 batch w input.
  apply (encode_channel_mismatch w0 batch Cpu true w 2 1 2 2 input 3 2 2 2).
  - vm_compute. reflexivity.
  - built_on w0 batch w.
  - vm_compute. reflexivity.
  - discriminate.
Defined.


(** X12 on a batch of three samples. *)
Lemma generate_shape_witness :
  let w0 := fresh 1 2 (Some [4]) in
  let batch := zeros [2; 1; 2; 2] in
  let w := (build batch Cpu w0).2 in
  let x := zeros [3; 1; 2; 2] in
  let P := 2 ^ Z.of_nat (length (hidden_dims (self w))) in
  ∃ outs d w1,
    forward x w = (Ok outs, w1) ∧ outs !! 0%nat = Some d ∧
    generate x w = (Ok d, w1) ∧
    shape d = [3; 1; 2 + (- 2) mod P - (- 2) mod P; 2] ∧
    (shape d = shape x ↔ (2 - 2) mod P = 0).
Proof.
  intros w0 batch w x. apply (generate_shape w0 batch Cpu true w 2 1 2 2 x 3).
  - vm_compute. reflexivity.
  - built_on w0 batch w.
  - vm_compute. reflexivity.
  - lia.
  - intros (_ & E & _). discriminate E.
Defined.

(** X13 on a batch of three samples. *)
Lemma forward_then_loss_witness :
  let w0 := fresh 1 2 (Some [4]) in
  let batch := zeros [2; 1; 2; 2] in
  let w := (build batch Cpu w0).2 in
  let input := zeros [3; 1; 2; 2] in
  let kwargs : gmap string Q := {[ "M_N" := (1 # 2)%Q ]} in
  ∃ outs w1 loss rl kld,
    forward input w = (Ok outs, w1) ∧
    loss_function outs kwargs w1
    = (Ok ({[ "loss" := loss; "Reconstruction_Loss" := rl; "KLD" := kld ]}
            : gmap string Tensor), w1) ∧
    shape loss = [] ∧ shape rl = [] ∧ shape kld = [].
Proof.
  intros w0 batch w input kwargs.
  apply (forward_then_loss w0 batch Cpu true w 2 1 2 2 input 3 kwargs (1 # 2)%Q).
  - vm_compute. reflexivity.
  - built_on w0 batch w.
  - vm_compute. reflexivity.
  - lia.
  - intros (_ & E & _). discriminate E.
  - vm_compute. reflexivity.
  - reflexivity.
Defined.

(** X14 on three arguments. *)
Lemma loss_function_too_few_args_witness :
  let w := mkWorld (set_built true (__init__ 1 2 None)) 0%nat in
  let recons := zeros [2; 3] in
  loss_function [recons; recons; recons] ∅ w = (Raise IndexError, w).
Proof.
  intros w recons. apply (loss_function_too_few_args w [recons; recons; recons] ∅).
  - reflexivity.
  - simpl. lia.
Defined.

(** X15 on keyword arguments without the weight. *)
Lemma loss_function_no_weight_witness :
  let w := mkWorld (set_built true (__init__ 1 2 None)) 0%nat in
  let recons := zeros [2; 3] in
  let mu := zeros [2; 2] in
  let kwargs : gmap string Q := {[ "kld_weight" := (1 # 2)%Q ]} in
  loss_function [recons; recons; mu; mu] kwargs w = (Raise (KeyError "M_N"), w).
Proof.
  intros w recons mu kwargs. apply (loss_function_no_weight w [recons; recons; mu; mu] kwargs).
  - reflexivity.
  - simpl. lia.
  - reflexivity.
Defined.

(** X16 on a latent vector of two values. *)
Lemma loss_function_flat_latent_witness :
  let w := mkWorld (set_built true (__init__ 1 2 None)) 0%nat in
  let recons := zeros [2; 3] in
  let mu := zeros [2] in
  let kwargs : gmap string Q := {[ "M_N" := (1 # 2)%Q ]} in
  loss_function [recons; recons; mu; mu] kwargs w = (Raise IndexError, w).
Proof.
  intros w recons mu kwargs.
  apply (loss_function_flat_latent w recons recons mu mu [] kwargs (1 # 2)%Q 2); reflexivity.
Defined.

(** X17 on a freshly constructed model. *)
Lemma sample_negative_count_witness :
  let w := fresh 3 16 None in
  sample (-1) Cpu w = (Raise RuntimeError, w).
Proof. intros w. apply (sample_negative_count w (-1) Cpu). lia. Defined.


(** X19 on a model built on 2 x 2 images. *)
Lemma eval_accepts_single_sample_witness :
  let w0 := fresh 1 2 (Some [4]) in
  let batch := zeros [2; 1; 2; 2] in
  let w := (build batch Cpu w0).2 in
  let input := zeros [1; 1; 2; 2] in
  encode input w = (Raise ValueError, w) ∧
  ∃ mu log_var,
    encode input (train false w).2 = (Ok [mu; log_var], (train false w).2) ∧
    shape mu = [1; latent_dim (self w)] ∧ shape log_var = [1; latent_dim (self w)].
Proof.
  intros w0 batch w input.
  apply (eval_accepts_single_sample w0 batch Cpu w 2 1 2 2 input).
  - vm_compute. reflexivity.
  - built_on w0 batch w.
  - vm_compute. reflexivity.
  - vm_compute. discriminate.
  - vm_compute. discriminate.
Defined.

End ConcreteMore.
